(** * A shallow embedding of [blockchain3.py]

    The ledger / consensus core of the single-file blockchain node:
    [Blockchain.new_block], [new_transaction], [hash], [last_block],
    [proof_of_work], [valid_chain], [valid_proof], [register_node] and
    [resolve_conflicts].

    Conventions of the embedding.
    - A Python [int] is a [Z]; a Python [str] is a [string] whose characters
      are read as the code points 0..255.
    - A Python [float] is only ever produced by [time()] and consumed by
      [json.dumps]; it is carried as its [repr] text.
    - Library calls the program makes ([hashlib.sha256], [json.dumps],
      [urllib.parse.urlparse]) are written out as executable functions.
    - Exceptions are explicit: an operation returns a [result]. Effects on
      [self] are explicit state passing over the record [Blockchain]; the
      clock and the network are arguments. *)

From Stdlib Require Import ZArith String Ascii List Lia Bool.
From Stdlib Require DecimalString.
From stdpp Require Import base list gmap strings sorting.

Local Open Scope Z_scope.

(** ** [hashlib.sha256]: SHA-256 over 32-bit words held in [Z] *)

Module SHA256.

Definition mask32 : Z := 0xffffffff.

Definition add32 (x y : Z) : Z := Z.land (x + y) mask32.

Definition rotr (n x : Z) : Z :=
  Z.land (Z.lor (Z.shiftr x n) (Z.shiftl x (32 - n))) mask32.

Definition shr (n x : Z) : Z := Z.shiftr x n.

Definition Ch (x y z : Z) : Z :=
  Z.lxor (Z.land x y) (Z.land (Z.lxor x mask32) z).

Definition Maj (x y z : Z) : Z :=
  Z.lxor (Z.lxor (Z.land x y) (Z.land x z)) (Z.land y z).

Definition bsig0 (x : Z) : Z := Z.lxor (Z.lxor (rotr 2 x) (rotr 13 x)) (rotr 22 x).
Definition bsig1 (x : Z) : Z := Z.lxor (Z.lxor (rotr 6 x) (rotr 11 x)) (rotr 25 x).
Definition ssig0 (x : Z) : Z := Z.lxor (Z.lxor (rotr 7 x) (rotr 18 x)) (shr 3 x).
Definition ssig1 (x : Z) : Z := Z.lxor (Z.lxor (rotr 17 x) (rotr 19 x)) (shr 10 x).

(** The round constants: the first 32 bits of the fractional parts of the
    cube roots of the first 64 primes. *)
Definition K : list Z :=
  1116352408 :: 1899447441 :: 3049323471 :: 3921009573 ::
  961987163 :: 1508970993 :: 2453635748 :: 2870763221 ::
  3624381080 :: 310598401 :: 607225278 :: 1426881987 ::
  1925078388 :: 2162078206 :: 2614888103 :: 3248222580 ::
  3835390401 :: 4022224774 :: 264347078 :: 604807628 ::
  770255983 :: 1249150122 :: 1555081692 :: 1996064986 ::
  2554220882 :: 2821834349 :: 2952996808 :: 3210313671 ::
  3336571891 :: 3584528711 :: 113926993 :: 338241895 ::
  666307205 :: 773529912 :: 1294757372 :: 1396182291 ::
  1695183700 :: 1986661051 :: 2177026350 :: 2456956037 ::
  2730485921 :: 2820302411 :: 3259730800 :: 3345764771 ::
  3516065817 :: 3600352804 :: 4094571909 :: 275423344 ::
  430227734 :: 506948616 :: 659060556 :: 883997877 ::
  958139571 :: 1322822218 :: 1537002063 :: 1747873779 ::
  1955562222 :: 2024104815 :: 2227730452 :: 2361852424 ::
  2428436474 :: 2756734187 :: 3204031479 :: 3329325298 ::
  [].

(** The eight working variables [a..h], also the running digest. *)
Record regs : Type := Regs
  { ra : Z; rb : Z; rc : Z; rd : Z; re : Z; rf : Z; rg : Z; rh : Z }.

Definition H0 : regs :=
  Regs 0x6a09e667 0xbb67ae85 0x3c6ef372 0xa54ff53a
       0x510e527f 0x9b05688c 0x1f83d9ab 0x5be0cd19.

(** Padding: a [0x80] byte, zeros up to 56 modulo 64, then the bit length
    as a big-endian 64-bit integer. *)
Definition be_bytes (n : nat) (x : Z) : list Z :=
  map (fun i => Z.land (Z.shiftr x (8 * Z.of_nat i)) 0xff) (rev (seq 0 n)).

Definition pad (msg : list Z) : list Z :=
  let len := Z.of_nat (length msg) in
  msg ++ [0x80] ++ repeat 0 (Z.to_nat ((55 - len) mod 64)) ++ be_bytes 8 (8 * len).

(** Big-endian 32-bit words of a byte sequence. *)
Fixpoint words (bs : list Z) : list Z :=
  match bs with
  | b0 :: b1 :: b2 :: b3 :: rest =>
      Z.lor (Z.shiftl b0 24) (Z.lor (Z.shiftl b1 16) (Z.lor (Z.shiftl b2 8) b3))
      :: words rest
  | _ => []
  end.

(** One round. [win] is the sliding window [W(t) .. W(t+15)] of the
    message schedule. *)
Definition round (k : Z) (win : list Z) (r : regs) : regs :=
  let t1 := add32 (add32 (add32 (add32 (rh r) (bsig1 (re r)))
                                (Ch (re r) (rf r) (rg r))) k) (nth 0 win 0) in
  let t2 := add32 (bsig0 (ra r)) (Maj (ra r) (rb r) (rc r)) in
  Regs (add32 t1 t2) (ra r) (rb r) (rc r) (add32 (rd r) t1) (re r) (rf r) (rg r).

Definition slide (win : list Z) : list Z :=
  tl win ++
  [add32 (add32 (add32 (ssig1 (nth 14 win 0)) (nth 9 win 0))
                (ssig0 (nth 1 win 0))) (nth 0 win 0)].

Fixpoint rounds (ks win : list Z) (r : regs) : regs :=
  match ks with
  | [] => r
  | k :: ks' => rounds ks' (slide win) (round k win r)
  end.

Definition compress (h : regs) (block : list Z) : regs :=
  let r := rounds K block h in
  Regs (add32 (ra h) (ra r)) (add32 (rb h) (rb r))
       (add32 (rc h) (rc r)) (add32 (rd h) (rd r))
       (add32 (re h) (re r)) (add32 (rf h) (rf r))
       (add32 (rg h) (rg r)) (add32 (rh h) (rh r)).

(** The padded message is consumed sixteen words at a time; [n] counts
    the blocks. *)
Fixpoint blocks (n : nat) (ws : list Z) (h : regs) : regs :=
  match n with
  | O => h
  | S n' => blocks n' (skipn 16 ws) (compress h (firstn 16 ws))
  end.

Definition digest (msg : list Z) : regs :=
  let ws := words (pad msg) in
  blocks (length ws / 16)%nat ws H0.

Definition hex_digit (d : Z) : ascii :=
  ascii_of_N (Z.to_N (if d <? 10 then 48 + d else 87 + d)).

Definition hex_word (x : Z) : string :=
  fold_right (fun i s => String (hex_digit (Z.land (Z.shiftr x (4 * Z.of_nat i)) 0xf)) s)
             EmptyString (rev (seq 0 8)).

(** [hashlib.sha256(msg).hexdigest()]: 64 lower-case hexadecimal digits. *)
Definition hexdigest (msg : list Z) : string :=
  let r := digest msg in
  (hex_word (ra r) ++ hex_word (rb r) ++ hex_word (rc r) ++ hex_word (rd r) ++
   hex_word (re r) ++ hex_word (rf r) ++ hex_word (rg r) ++ hex_word (rh r))%string.

End SHA256.

(** ** Python strings *)

(** [str.encode()]: UTF-8 of a string of code points below 256. *)
Definition encode_char (c : ascii) : list Z :=
  let n := Z.of_N (N_of_ascii c) in
  if n <? 128 then [n]
  else [Z.lor 0xc0 (Z.shiftr n 6); Z.lor 0x80 (Z.land n 0x3f)].

Fixpoint encode (s : string) : list Z :=
  match s with
  | EmptyString => []
  | String c s' => encode_char c ++ encode s'
  end.

(** [str(n)] / [f'{n}'] for an [int]. *)
Definition str_int (n : Z) : string :=
  DecimalString.NilZero.string_of_int (Z.to_int n).

Definition sha256_hex (s : string) : string := SHA256.hexdigest (encode s).

(** ** [json.dumps] *)

(** The JSON-serialisable Python values. A [dict] is kept as its items in
    insertion order; its keys are strings and pairwise distinct. *)
#[warnings="-register-all"]
Inductive json : Type :=
  | JNull
  | JBool (b : bool)
  | JInt (n : Z)
  | JFloat (repr : string)
  | JStr (s : string)
  | JList (l : list json)
  | JDict (items : list (string * json)).

Definition dquote : ascii := "034"%char.
Definition backslash : ascii := "092"%char.

Definition hex4 (n : Z) : string :=
  fold_right (fun i s => String (SHA256.hex_digit (Z.land (Z.shiftr n (4 * Z.of_nat i)) 0xf)) s)
             EmptyString (rev (seq 0 4)).

(** One character of [py_encode_basestring_ascii]: everything outside
    [' '..'~'], the quote and the backslash are escaped. *)
Definition escape_char (c : ascii) : string :=
  let n := Z.of_N (N_of_ascii c) in
  if n =? 34 then String backslash (String dquote EmptyString)
  else if n =? 92 then String backslash (String backslash EmptyString)
  else if n =? 10 then String backslash "n"
  else if n =? 13 then String backslash "r"
  else if n =? 9 then String backslash "t"
  else if n =? 12 then String backslash "f"
  else if n =? 8 then String backslash "b"
  else if (n <? 32) || (126 <? n) then String backslash (String "u" (hex4 n))
  else String c EmptyString.

Fixpoint escape (s : string) : string :=
  match s with
  | EmptyString => EmptyString
  | String c s' => (escape_char c ++ escape s')%string
  end.

Definition encode_basestring_ascii (s : string) : string :=
  String dquote (escape s ++ String dquote EmptyString).

(** [sep.join(parts)] *)
Fixpoint join (sep : string) (parts : list string) : string :=
  match parts with
  | [] => EmptyString
  | [p] => p
  | p :: rest => (p ++ sep ++ join sep rest)%string
  end.

(** Order of the dictionary items under [sort_keys=True]: by key. *)
Definition key_le (a b : string * string) : Prop := String.le a.1 b.1.

#[global] Instance key_le_dec : RelDecision key_le.
Proof. intros a b. unfold key_le. apply _. Defined.

Definition sort_items (sort_keys : bool) (items : list (string * string))
  : list (string * string) :=
  if sort_keys then merge_sort key_le items else items.

Definition dump_item (kv : string * string) : string :=
  (encode_basestring_ascii kv.1 ++ ": " ++ kv.2)%string.

(** [json.dumps(j, sort_keys=sort_keys)] with the default separators and
    [ensure_ascii]. The values of a dictionary are rendered first and the
    rendered items are then ordered by key: the order looks at keys only,
    so this is the text the encoder produces by ordering the items first. *)
Fixpoint dumps (sort_keys : bool) (j : json) : string :=
  match j with
  | JNull => "null"
  | JBool true => "true"
  | JBool false => "false"
  | JInt n => str_int n
  | JFloat repr => repr
  | JStr s => encode_basestring_ascii s
  | JList l => "[" ++ join ", " (map (dumps sort_keys) l) ++ "]"
  | JDict items =>
      "{" ++ join ", " (map dump_item
                (sort_items sort_keys
                   (map (fun kv => (kv.1, dumps sort_keys kv.2)) items))) ++ "}"
  end%string.

(** ** The data model *)

(** The transaction dictionary built by [new_transaction]. *)
Record Transaction : Type := mkTransaction
  { sender : string; recipient : string; amount : Z }.

(** The block dictionary built by [new_block]; [timestamp] is the [repr] of
    the float returned by [time()]. *)
Record Block : Type := mkBlock
  { index : Z;
    timestamp : string;
    transactions : list Transaction;
    proof : Z;
    previous_hash : string }.

(** The dictionaries, with their keys in the order the source writes them. *)
Definition transaction_dict (t : Transaction) : json :=
  JDict [ ("sender", JStr (sender t));
          ("recipient", JStr (recipient t));
          ("amount", JInt (amount t)) ]%string.

Definition block_dict (b : Block) : json :=
  JDict [ ("index", JInt (index b));
          ("timestamp", JFloat (timestamp b));
          ("transactions", JList (map transaction_dict (transactions b)));
          ("proof", JInt (proof b));
          ("previous_hash", JStr (previous_hash b)) ]%string.

(** The attributes of a [Blockchain] object. *)
Record Blockchain : Type := mkBlockchain
  { chain : list Block;
    current_transactions : list Transaction;
    nodes : gset string }.

(** ** Exceptions *)

Inductive exn : Type :=
  | IndexError
  | ValueError
  | RequestException.

(** What a call produces: a value, an exception, or, for the loops that
    carry fuel, no answer within the fuel. *)
Inductive result (A : Type) : Type :=
  | Ok (a : A)
  | Raise (e : exn)
  | OutOfFuel.

Arguments Ok {A} a.
Arguments Raise {A} e.
Arguments OutOfFuel {A}.

(** A method of the class: the result together with the object as the call
    leaves it, also when it raises. *)
Definition method (A : Type) : Type := Blockchain -> result A * Blockchain.

(** The values [resolve_conflicts] can return. *)
Inductive pyval : Type :=
  | PyNone
  | PyBool (b : bool).

Definition truthy (v : pyval) : bool :=
  match v with
  | PyNone => false
  | PyBool b => b
  end.

(** ** [Blockchain.hash] *)

Definition hash (block : json) : string :=
  let block_string := dumps true block in
  sha256_hex block_string.

(** ** [Blockchain.last_block]: [self.chain[-1]] *)

Definition last_block (self : Blockchain) : result Block :=
  match last (chain self) with
  | Some b => Ok b
  | None => Raise IndexError
  end.

(** ** [Blockchain.new_block] *)

(** [previous_hash or alt] for an optional string: [None] and the empty
    string are the falsy values. *)
Definition py_or (previous_hash : option string) (alt : result string) : result string :=
  match previous_hash with
  | Some h => if String.eqb h "" then alt else Ok h
  | None => alt
  end.

Definition new_block (now : string) (proof : Z) (previous_hash : option string)
  : method Block := fun self =>
  let hash_of_last :=
    match last_block self with
    | Ok b => Ok (hash (block_dict b))
    | Raise e => Raise e
    | OutOfFuel => OutOfFuel
    end in
  match py_or previous_hash hash_of_last with
  | Ok h =>
      let block :=
        {| index := Z.of_nat (length (chain self)) + 1;
           timestamp := now;
           transactions := current_transactions self;
           proof := proof;
           previous_hash := h |} in
      (Ok block,
       {| chain := chain self ++ [block];
          current_transactions := [];
          nodes := nodes self |})
  | Raise e => (Raise e, self)
  | OutOfFuel => (OutOfFuel, self)
  end.

(** ** [Blockchain.__init__] *)

Definition blank : Blockchain :=
  {| chain := []; current_transactions := []; nodes := ∅ |}.

Definition init (now : string) : result Block * Blockchain :=
  new_block now 100 (Some "1"%string) blank.

(** ** [Blockchain.new_transaction] *)

Definition new_transaction (sender recipient : string) (amount : Z)
  : method Z := fun self =>
  let self' :=
    {| chain := chain self;
       current_transactions :=
         current_transactions self ++ [mkTransaction sender recipient amount];
       nodes := nodes self |} in
  match last_block self' with
  | Ok b => (Ok (index b + 1), self')
  | Raise e => (Raise e, self')
  | OutOfFuel => (OutOfFuel, self')
  end.

(** ** [Blockchain.valid_proof] *)

Definition valid_proof (last_proof proof : Z) : bool :=
  let guess := (str_int last_proof ++ str_int proof)%string in
  let guess_hash := sha256_hex guess in
  if String.eqb (substring 0 4 guess_hash) "0000" then true else false.

(** ** [Blockchain.proof_of_work] *)

(** The [while] loop, at most [fuel] tests of the condition. *)
Fixpoint proof_of_work_loop (fuel : nat) (last_proof proof : Z) : result Z :=
  match fuel with
  | O => OutOfFuel
  | S fuel' =>
      if negb (valid_proof last_proof proof)
      then proof_of_work_loop fuel' last_proof (proof + 1)
      else Ok proof
  end.

Definition proof_of_work (fuel : nat) (last_proof : Z) : result Z :=
  proof_of_work_loop fuel last_proof 0.

(** ** [Blockchain.valid_chain] *)

(** The [while] loop; [current_index] only grows towards [len(chain)], so
    [len(chain)] tests of the condition are always enough. *)
Fixpoint valid_chain_loop (fuel : nat) (chain : list Block)
    (last_block : Block) (current_index : nat) : result bool :=
  match fuel with
  | O => OutOfFuel
  | S fuel' =>
      if (current_index <? length chain)%nat then
        match chain !! current_index with
        | None => Raise IndexError
        | Some block =>
            if negb (String.eqb (previous_hash block) (hash (block_dict last_block)))
            then Ok false
            else if negb (valid_proof (proof last_block) (proof block))
            then Ok false
            else valid_chain_loop fuel' chain block (current_index + 1)
        end
      else Ok true
  end.

Definition valid_chain (chain : list Block) : result bool :=
  match chain !! 0%nat with
  | None => Raise IndexError
  | Some last_block => valid_chain_loop (length chain) chain last_block 1
  end.

(** ** [urllib.parse.urlparse(address).netloc] *)

Module URL.

Definition code (c : ascii) : Z := Z.of_N (N_of_ascii c).

(** [url[:n]] and [url[n:]] *)
Fixpoint take (n : nat) (s : string) : string :=
  match n, s with
  | S n', String c s' => String c (take n' s')
  | _, _ => EmptyString
  end.

Fixpoint drop (n : nat) (s : string) : string :=
  match n, s with
  | S n', String _ s' => drop n' s'
  | _, _ => s
  end.

(** [url.find(c)]: the first position of [c], or [-1]. *)
Fixpoint find (c : ascii) (s : string) : Z :=
  match s with
  | EmptyString => -1
  | String d s' =>
      if Ascii.eqb d c then 0
      else let i := find c s' in if i <? 0 then -1 else i + 1
  end.

(** [url.find(c, start)] *)
Definition find_from (c : ascii) (start : nat) (s : string) : Z :=
  let i := find c (drop start s) in
  if i <? 0 then -1 else Z.of_nat start + i.

(** [c in url] *)
Definition contains (c : ascii) (s : string) : bool := 0 <=? find c s.

(** [url.lstrip(_WHATWG_C0_CONTROL_OR_SPACE)] *)
Fixpoint lstrip (s : string) : string :=
  match s with
  | String c s' => if code c <=? 32 then lstrip s' else s
  | EmptyString => EmptyString
  end.

(** Removal of [_UNSAFE_URL_BYTES_TO_REMOVE]: tab, carriage return and
    line feed, anywhere in the address. *)
Definition unsafe (c : ascii) : bool :=
  (code c =? 9) || (code c =? 13) || (code c =? 10).

Fixpoint remove_unsafe (s : string) : string :=
  match s with
  | String c s' => if unsafe c then remove_unsafe s' else String c (remove_unsafe s')
  | EmptyString => EmptyString
  end.

Definition is_alpha (c : ascii) : bool :=
  ((65 <=? code c) && (code c <=? 90)) || ((97 <=? code c) && (code c <=? 122)).

(** Membership in [scheme_chars]: letters, digits, [+], [-] and [.]. *)
Definition is_scheme_char (c : ascii) : bool :=
  is_alpha c || ((48 <=? code c) && (code c <=? 57))
  || (code c =? 43) || (code c =? 45) || (code c =? 46).

Fixpoint all_scheme_chars (s : string) : bool :=
  match s with
  | EmptyString => true
  | String c s' => is_scheme_char c && all_scheme_chars s'
  end.

(** The address once a leading [scheme:] has been split off. *)
Definition strip_scheme (url : string) : string :=
  let i := find ":" url in
  match url with
  | String c0 _ =>
      if (0 <? i) && is_alpha c0 && all_scheme_chars (take (Z.to_nat i) url)
      then drop (Z.to_nat i + 1) url
      else url
  | EmptyString => url
  end.

(** [_splitnetloc(url, 2)[0]] *)
Definition splitnetloc (url : string) : string :=
  let delim :=
    fold_left (fun delim c =>
                 let wdelim := find_from c 2 url in
                 if 0 <=? wdelim then Z.min delim wdelim else delim)
              ["/"; "?"; "#"]%char
              (Z.of_nat (String.length url)) in
  take (Z.to_nat delim - 2) (drop 2 url).

Section Netloc.

(** [_check_bracketed_netloc], the validation of a bracketed IPv6 or
    IPvFuture host: [true] when it accepts the authority. It depends on
    the interpreter's [ipaddress] module and is left open. *)
Variable check_bracketed_netloc : string -> bool.

(** [urlparse(address).netloc]. [_checknetloc] only rejects characters
    whose NFKC form contains one of [/?#@:]; no code point below 256
    other than these has such a form, so it accepts every authority of
    this model. *)
Definition netloc (address : string) : result string :=
  let url := remove_unsafe (lstrip address) in
  let url := strip_scheme url in
  if String.eqb (take 2 url) "//" then
    let netloc := splitnetloc url in
    if (contains "[" netloc && negb (contains "]" netloc))
       || (contains "]" netloc && negb (contains "[" netloc))
    then Raise ValueError
    else if contains "[" netloc && contains "]" netloc
            && negb (check_bracketed_netloc netloc)
    then Raise ValueError
    else Ok netloc
  else Ok EmptyString.

End Netloc.

End URL.

(** ** [Blockchain.register_node] *)

Definition register_node (check_bracketed_netloc : string -> bool)
    (address : string) : method unit := fun self =>
  match URL.netloc check_bracketed_netloc address with
  | Ok netloc =>
      (Ok tt,
       {| chain := chain self;
          current_transactions := current_transactions self;
          nodes := nodes self ∪ {[ netloc ]} |})
  | Raise e => (Raise e, self)
  | OutOfFuel => (OutOfFuel, self)
  end.

(** ** [Blockchain.resolve_conflicts] *)

(** What the code reads of [requests.get(url)]: the status code and, in the
    JSON body, the reported length and the chain. The body is taken to be
    well formed: the length an integer and the chain a list of blocks with
    the five fields of a block; the code itself does not check it. *)
Record Response : Type := mkResponse
  { status_code : Z;
    json_length : Z;
    json_chain : list Block }.

Section Resolve.

(** [requests.get]; it may raise. *)
Variable get : string -> result Response.

(** One iteration of the [for] loop over the neighbours, on the loop
    variables [(max_length, new_chain)]. *)
Definition resolve_step (acc : Z * option (list Block)) (node : string)
  : result (Z * option (list Block)) :=
  let '(max_length, new_chain) := acc in
  match get ("http://" ++ node ++ "/chain")%string with
  | Ok response =>
      if status_code response =? 200 then
        let length := json_length response in
        let chain := json_chain response in
        if length >? max_length then
          match valid_chain chain with
          | Ok true => Ok (length, Some chain)
          | Ok false => Ok (max_length, new_chain)
          | Raise e => Raise e
          | OutOfFuel => OutOfFuel
          end
        else Ok (max_length, new_chain)
      else Ok (max_length, new_chain)
  | Raise e => Raise e
  | OutOfFuel => OutOfFuel
  end.

Fixpoint resolve_scan (neighbours : list string) (acc : Z * option (list Block))
  : result (Z * option (list Block)) :=
  match neighbours with
  | [] => Ok acc
  | node :: rest =>
      match resolve_step acc node with
      | Ok acc' => resolve_scan rest acc'
      | Raise e => Raise e
      | OutOfFuel => OutOfFuel
      end
  end.

(** [if new_chain:] holds for a non-empty list only. *)
Definition nonempty_chain (new_chain : option (list Block)) : bool :=
  match new_chain with
  | Some (_ :: _) => true
  | _ => false
  end.

(** The method, over the neighbours in the order the set yields them. The
    function ends after the [if]: without a replacement it returns
    [None]. *)
Definition resolve_conflicts_over (neighbours : list string) : method pyval :=
  fun self =>
  let max_length := Z.of_nat (length (chain self)) in
  match resolve_scan neighbours (max_length, None) with
  | Ok (_, new_chain) =>
      if nonempty_chain new_chain then
        (Ok (PyBool true),
         {| chain := default [] new_chain;
            current_transactions := current_transactions self;
            nodes := nodes self |})
      else (Ok PyNone, self)
  | Raise e => (Raise e, self)
  | OutOfFuel => (OutOfFuel, self)
  end.

Definition resolve_conflicts : method pyval := fun self =>
  resolve_conflicts_over (elements (nodes self)) self.

End Resolve.

(** ** The request handlers *)

(** Sequencing of calls on the one [blockchain] object of the module: the
    first exception ends the handler, with the object as it then is. *)
Definition bind {A B : Type} (m : method A) (k : A -> method B) : method B :=
  fun self =>
    match m self with
    | (Ok a, self') => k a self'
    | (Raise e, self') => (Raise e, self')
    | (OutOfFuel, self') => (OutOfFuel, self')
    end.

Definition ret {A : Type} (a : A) : method A := fun self => (Ok a, self).

Notation "'let*' x := m 'in' k" := (bind m (fun x => k))
  (at level 10, x name, m at level 100, k at level 200).

(** What a handler returns: a text or [jsonify] of a dictionary, with the
    status code. *)
Inductive body : Type :=
  | Text (s : string)
  | Json (j : json).

(** The JSON body of a transaction request, as far as the handler reads it:
    each of the three keys is absent or bound to a value of the type
    [Blockchain.new_transaction] declares. *)
Record Values : Type := mkValues
  { values_sender : option string;
    values_recipient : option string;
    values_amount : option Z }.

Module App.

(** [mine]; [node_identifier] is the module constant, [fuel] bounds the
    search of [proof_of_work]. *)
Definition mine (fuel : nat) (node_identifier now : string) : method (body * Z) :=
  let* last_block := (fun self => (last_block self, self)) in
  let last_proof := proof last_block in
  let* proof_ := (fun self => (proof_of_work fuel last_proof, self)) in
  let* _ := new_transaction "0" node_identifier 1 in
  let* block := new_block now proof_ None in
  let response :=
    JDict [ ("message", JStr "New block has been successfully packaged and generated!");
            ("index", JInt (index block));
            ("transactions", JList (map transaction_dict (transactions block)));
            ("proof", JInt (proof block));
            ("previous_hash", JStr (previous_hash block)) ]%string in
  ret (Json response, 200).

(** [full_chain]: the chain and its length with status 200, which is what a
    peer's [resolve_conflicts] reads of the answer. *)
Definition full_chain (self : Blockchain) : Response :=
  {| status_code := 200;
     json_length := Z.of_nat (length (chain self));
     json_chain := chain self |}.

(** [register_nodes]; [nodes] is [values.get('nodes')]. *)
Fixpoint register_each (check : string -> bool) (nodes : list string) : method unit :=
  match nodes with
  | [] => ret tt
  | node :: rest => let* _ := register_node check node in register_each check rest
  end.

(** The answer of [register_nodes]: the nodes in the order the set yields
    them. *)
Definition nodes_added : method (body * Z) := fun self =>
  let response :=
    JDict [ ("message", JStr "New nodes have been added!");
            ("total_nodes", JList (map JStr (elements (nodes self)))) ]%string in
  (Ok (Json response, 201), self).

Definition register_nodes (check : string -> bool) (nodes : option (list string))
  : method (body * Z) :=
  match nodes with
  | None => ret (Text "Error: Please provide a valid node list", 400)
  | Some nodes => let* _ := register_each check nodes in nodes_added
  end.

(** [consensus] *)
Definition consensus (get : string -> result Response) : method (body * Z) :=
  let* replaced := resolve_conflicts get in
  fun self =>
    let response :=
      if truthy replaced then
        JDict [ ("message", JStr "The current chain was not compliant and has been replaced");
                ("new_chain", JList (map block_dict (chain self))) ]%string
      else
        JDict [ ("message", JStr "The current chain complies with the requirements");
                ("chain", JList (map block_dict (chain self))) ]%string in
    (Ok (Json response, 200), self).

(** [new_transaction], the handler of [/transactions/new]. *)
Definition new_transaction (values : Values) : method (body * Z) :=
  match values_sender values, values_recipient values, values_amount values with
  | Some sender, Some recipient, Some amount =>
      let* index := new_transaction sender recipient amount in
      let response :=
        JDict [ ("message",
                 JStr ("Transaction will be added to block " ++ str_int index)) ]%string in
      ret (Json response, 201)
  | _, _, _ => ret (Text "Missing parameters", 400)
  end.

End App.

(** * The vocabulary of the properties *)

(** ** Chains *)

(** The two checks of the loop body, on a block and its predecessor. *)
Definition linked (prev block : Block) : bool :=
  String.eqb (previous_hash block) (hash (block_dict prev))
  && valid_proof (proof prev) (proof block).

(** The loop of [valid_chain], read off the list: every block after the
    first is [linked] to the one before it. *)
Fixpoint links_ok (prev : Block) (rest : list Block) : bool :=
  match rest with
  | [] => true
  | block :: rest' => linked prev block && links_ok block rest'
  end.

(** The chains built by the node itself: the genesis block of [__init__],
    then [new_transaction] calls and [new_block] calls with [previous_hash]
    omitted and a proof that [valid_proof] accepts after the last block's. *)
Inductive mined : Blockchain -> Prop :=
  | mined_genesis (now : string) : mined (init now).2
  | mined_transaction (self : Blockchain) (sender recipient : string) (amount : Z) :
      mined self -> mined (new_transaction sender recipient amount self).2
  | mined_block (self : Blockchain) (now : string) (p : Z) (prev : Block) :
      mined self ->
      last (chain self) = Some prev ->
      valid_proof (proof prev) p = true ->
      mined (new_block now p None self).2.

Definition with_previous_hash (h : string) (b : Block) : Block :=
  mkBlock (index b) (timestamp b) (transactions b) (proof b) h.

Definition with_proof (q : Z) (b : Block) : Block :=
  mkBlock (index b) (timestamp b) (transactions b) q (previous_hash b).

(** The blocks of a chain are numbered by their position, from 1. *)
Definition indexed (chain : list Block) : Prop :=
  forall (n : nat) (b : Block), chain !! n = Some b -> index b = Z.of_nat n + 1.

(** ** States and peers *)

(** The states a node goes through: construction, then any calls of its
    methods. The peers answer [resolve_conflicts] as they like, with chains
    in [peer_chains]. *)
Inductive reachable (peer_chains : list Block -> Prop) : Blockchain -> Prop :=
  | reach_init (now : string) : reachable peer_chains (init now).2
  | reach_new_transaction (self : Blockchain) (sender recipient : string) (amount : Z) :
      reachable peer_chains self ->
      reachable peer_chains (new_transaction sender recipient amount self).2
  | reach_new_block (self : Blockchain) (now : string) (p : Z) (supplied : option string) :
      reachable peer_chains self ->
      reachable peer_chains (new_block now p supplied self).2
  | reach_register_node (self : Blockchain) (check : string -> bool) (address : string) :
      reachable peer_chains self ->
      reachable peer_chains (register_node check address self).2
  | reach_resolve_conflicts (self : Blockchain) (get : string -> result Response) :
      (forall (url : string) (r : Response), get url = Ok r -> peer_chains (json_chain r)) ->
      reachable peer_chains self ->
      reachable peer_chains (resolve_conflicts get self).2.

(** No condition on what the peers send. *)
Definition any_chain (chain : list Block) : Prop := True.

(** A peer whose two blocks are hash-linked and carry an accepted proof,
    but are numbered 7 and 9. *)
Definition forged_first : Block := mkBlock 7 "0.0" [] 100 "1".

Definition forged_second : Block :=
  mkBlock 9 "1.0" [] 35293 (hash (block_dict forged_first)).

Definition forged_get (url : string) : result Response :=
  Ok (mkResponse 200 2 [forged_first; forged_second]).

(** A fresh node that registers the peer and resolves. *)
Definition adopted : Blockchain :=
  (resolve_conflicts forged_get
     (register_node (fun _ => true) "http://127.0.0.1:5002" (init "0.0").2).2).2.

(** A neighbour that answers, but not with a strictly longer chain that
    passes [valid_chain]. *)
Definition offers_nothing (get : string -> result Response) (max_length : Z)
    (node : string) : Prop :=
  exists r : Response,
    get ("http://" ++ node ++ "/chain")%string = Ok r
    /\ (status_code r <> 200
        \/ json_length r <= max_length
        \/ valid_chain (json_chain r) = Ok false).

(** A neighbour's answer with status 200 and a chain that passes
    [valid_chain]. *)
Definition offer (get : string -> result Response) (node : string) (r : Response)
  : Prop :=
  get ("http://" ++ node ++ "/chain")%string = Ok r
  /\ status_code r = 200
  /\ valid_chain (json_chain r) = Ok true.

(** ** Dictionaries *)

(** Two values that present the same data: equal outside dictionaries, and
    dictionaries with the same keys bound to such values, in any order. *)
#[warnings="-register-all"]
Inductive json_equiv : json -> json -> Prop :=
  | equiv_null : json_equiv JNull JNull
  | equiv_bool (b : bool) : json_equiv (JBool b) (JBool b)
  | equiv_int (n : Z) : json_equiv (JInt n) (JInt n)
  | equiv_float (repr : string) : json_equiv (JFloat repr) (JFloat repr)
  | equiv_str (s : string) : json_equiv (JStr s) (JStr s)
  | equiv_list (l1 l2 : list json) :
      Forall2 json_equiv l1 l2 -> json_equiv (JList l1) (JList l2)
  | equiv_dict (items1 items2 reordered : list (string * json)) :
      NoDup (map fst items1) ->
      Permutation items2 reordered ->
      Forall2 (fun a b => a.1 = b.1 /\ json_equiv a.2 b.2) items1 reordered ->
      json_equiv (JDict items1) (JDict items2).

Fixpoint json_size (j : json) : nat :=
  match j with
  | JList l => S (list_sum (map json_size l))
  | JDict items => S (list_sum (map (fun kv => json_size kv.2) items))
  | _ => 1%nat
  end.

(** ** The text that is hashed *)

(** A lower-case hexadecimal digit. *)
Definition hex_char (c : ascii) : bool :=
  let n := Z.of_N (N_of_ascii c) in
  ((48 <=? n) && (n <=? 57)) || ((97 <=? n) && (n <=? 102)).

(** The JSON text of a transaction and of a block, keys in alphabetical
    order. *)
Definition transaction_text (t : Transaction) : string :=
  ("{" ++ join ", " [ dump_item ("amount", str_int (amount t));
                      dump_item ("recipient", encode_basestring_ascii (recipient t));
                      dump_item ("sender", encode_basestring_ascii (sender t)) ]
       ++ "}")%string.

Definition block_text (b : Block) : string :=
  ("{" ++ join ", "
            [ dump_item ("index", str_int (index b));
              dump_item ("previous_hash", encode_basestring_ascii (previous_hash b));
              dump_item ("proof", str_int (proof b));
              dump_item ("timestamp", timestamp b);
              dump_item ("transactions",
                         "[" ++ join ", " (map transaction_text (transactions b)) ++ "]") ]
       ++ "}")%string.

(** ** Addresses *)

Fixpoint all_chars (p : ascii -> bool) (s : string) : bool :=
  match s with
  | EmptyString => true
  | String c s' => p c && all_chars p s'
  end.

Definition differs (c d : ascii) : bool := negb (Ascii.eqb d c).

(** The characters of an authority that the parser neither removes nor
    reads as the end of the authority or as a bracket. *)
Definition authority_char (c : ascii) : bool :=
  negb (URL.unsafe c) && differs "/" c && differs "?" c && differs "#" c
  && differs "[" c && differs "]" c.

(** What may follow the authority: nothing, or a path, query or fragment. *)
Definition starts_path (rest : string) : bool :=
  match rest with
  | EmptyString => true
  | String c _ => Ascii.eqb c "/" || Ascii.eqb c "?" || Ascii.eqb c "#"
  end.

(** * Properties *)

(** ** The library models on known values *)

Example sha256_empty :
  sha256_hex "" = "e3b0c44298fc1c149afbf4c8996fb92427ae41e4649b934ca495991b7852b855"%string.
Proof. vm_compute. reflexivity. Qed.

Example sha256_abc :
  sha256_hex "abc" = "ba7816bf8f01cfea414140de5dae2223b00361a396177a9cb410ff61f20015ad"%string.
Proof. vm_compute. reflexivity. Qed.

Example str_int_samples :
  (str_int 0, str_int 100, str_int (-35293)) = ("0", "100", "-35293")%string.
Proof. vm_compute. reflexivity. Qed.

Example dumps_sorts_keys :
  dumps true (JDict [("b", JList []); ("a", JDict []); ("c", JList [JInt 1; JInt 2]);
                     ("B", JNull)]%string)
  = (String "{" (String dquote "B") ++ String dquote ": null, " ++
     String dquote "a" ++ String dquote ": {}, " ++
     String dquote "b" ++ String dquote ": [], " ++
     String dquote "c" ++ String dquote ": [1, 2]}")%string.
Proof. vm_compute. reflexivity. Qed.

Example netloc_samples :
  map (URL.netloc (fun _ => true))
      ["http://127.0.0.1:5002"; "127.0.0.1:5002"; "//h:1"; "localhost:5000";
       "HTTP://User@Host:80/chain?x#y"; "x://a]"]%string
  = [Ok "127.0.0.1:5002"; Ok ""; Ok "h:1"; Ok ""; Ok "User@Host:80";
     Raise ValueError]%string.
Proof. vm_compute. reflexivity. Qed.

(** The digest is evaluated on closed inputs only; simplification leaves
    it folded. *)
Opaque SHA256.hexdigest.

(** ** Chain validation *)

Lemma valid_chain_loop_links (rest : list Block) :
  forall (fuel : nat) (pre : list Block) (prev : Block),
    (length rest < fuel)%nat ->
    valid_chain_loop fuel (pre ++ prev :: rest) prev (length pre + 1)
    = Ok (links_ok prev rest).
Proof.
  induction rest as [|block rest IH]; intros fuel pre prev Hfuel.
  - destruct fuel as [|fuel]; [simpl in Hfuel; lia|].
    cbn [valid_chain_loop]. rewrite length_app. cbn [length].
    destruct (Nat.ltb_spec (length pre + 1) (length pre + 1)); [lia|reflexivity].
  - destruct fuel as [|fuel]; [simpl in Hfuel; lia|].
    simpl in Hfuel. cbn [valid_chain_loop].
    rewrite length_app. cbn [length].
    destruct (Nat.ltb_spec (length pre + 1) (length pre + S (S (length rest)))); [|lia].
    replace (length pre + 1)%nat with (length (pre ++ [prev])) at 1
      by (rewrite length_app; simpl; lia).
    replace (pre ++ prev :: block :: rest) with ((pre ++ [prev]) ++ block :: rest)
      by (rewrite <- app_assoc; reflexivity).
    rewrite list_lookup_middle by reflexivity.
    cbn [links_ok]. unfold linked.
    destruct (String.eqb (previous_hash block) (hash (block_dict prev))); cbn; [|reflexivity].
    destruct (valid_proof (proof prev) (proof block)); cbn; [|reflexivity].
    replace (length pre + 1 + 1)%nat with (length (pre ++ [prev]) + 1)%nat
      by (rewrite length_app; simpl; lia).
    apply IH. lia.
Qed.

Lemma valid_chain_cons (first : Block) (rest : list Block) :
  valid_chain (first :: rest) = Ok (links_ok first rest).
Proof.
  unfold valid_chain. cbn [lookup list_lookup].
  apply (valid_chain_loop_links rest (length (first :: rest)) [] first).
  simpl. lia.
Qed.

Lemma default_last_cons (prev b : Block) (rest : list Block) :
  default prev (last (b :: rest)) = default b (last rest).
Proof.
  revert prev b. induction rest as [|b' rest IH]; intros prev b; [reflexivity|].
  rewrite last_cons_cons, (IH prev b'), (IH b b'). reflexivity.
Qed.

Lemma links_ok_snoc (prev : Block) (rest : list Block) (block : Block) :
  links_ok prev (rest ++ [block])
  = links_ok prev rest && linked (default prev (last rest)) block.
Proof.
  revert prev. induction rest as [|b rest IH]; intros prev.
  - cbn [app links_ok last default]. rewrite andb_true_r. reflexivity.
  - cbn [app links_ok]. rewrite IH, andb_assoc, default_last_cons. reflexivity.
Qed.

Lemma links_ok_broken (rest : list Block) :
  forall (prev : Block) (i : nat) (a b : Block),
    (prev :: rest) !! i = Some a ->
    (prev :: rest) !! S i = Some b ->
    linked a b = false ->
    links_ok prev rest = false.
Proof.
  induction rest as [|block rest IH]; intros prev i a b Ha Hb Hbad.
  - destruct i; discriminate Hb.
  - destruct i as [|i].
    + cbn in Ha, Hb. injection Ha as <-. injection Hb as <-.
      cbn [links_ok]. rewrite Hbad. reflexivity.
    + cbn [links_ok]. rewrite (IH block i a b Ha Hb Hbad).
      apply andb_false_r.
Qed.

(** C8. [valid_chain] raises [IndexError] on the empty chain, at the access
    [chain[0]]; on every chain with at least one block all accesses are in
    bounds and a boolean is returned, [True] for a chain of one block. *)
Theorem C8_valid_chain_total_on_nonempty :
  valid_chain [] = Raise IndexError
  /\ (forall chain : list Block,
        (1 <= length chain)%nat -> exists b : bool, valid_chain chain = Ok b)
  /\ (forall block : Block, valid_chain [block] = Ok true).
Proof.
  split; [reflexivity|]. split.
  - intros [|first rest] Hlen; [simpl in Hlen; lia|].
    exists (links_ok first rest). apply valid_chain_cons.
  - intros block. rewrite valid_chain_cons. reflexivity.
Qed.

Lemma C8_valid_chain_total_on_nonempty_witness :
  exists b : bool, valid_chain [mkBlock 1 "0.0" [] 100 "1"; mkBlock 2 "1.0" [] 7 "x"] = Ok b.
Proof.
  apply (proj1 (proj2 C8_valid_chain_total_on_nonempty)). simpl. lia.
Defined.

Lemma new_block_omitted (now : string) (p : Z) (self : Blockchain) (prev : Block) :
  last (chain self) = Some prev ->
  new_block now p None self
  = (Ok (mkBlock (Z.of_nat (length (chain self)) + 1) now (current_transactions self)
                 p (hash (block_dict prev))),
     mkBlockchain
       (chain self ++ [mkBlock (Z.of_nat (length (chain self)) + 1) now
                               (current_transactions self) p (hash (block_dict prev))])
       [] (nodes self)).
Proof.
  intros Hlast. unfold new_block, last_block. rewrite Hlast. reflexivity.
Qed.

Lemma new_transaction_state (sender recipient : string) (amount : Z) (self : Blockchain) :
  (new_transaction sender recipient amount self).2
  = mkBlockchain (chain self)
      (current_transactions self ++ [mkTransaction sender recipient amount])
      (nodes self).
Proof.
  unfold new_transaction. destruct (last_block _); reflexivity.
Qed.


Lemma mined_links (self : Blockchain) :
  mined self ->
  exists (first : Block) (rest : list Block),
    chain self = first :: rest /\ links_ok first rest = true.
Proof.
  induction 1 as [now | self s r a _ IH | self now p prev _ IH Hlast Hproof].
  - eexists _, []. split; reflexivity.
  - rewrite new_transaction_state. exact IH.
  - destruct IH as (first & rest & Hchain & Hlinks).
    rewrite (new_block_omitted _ _ _ _ Hlast). cbn [snd chain].
    rewrite Hchain. eexists first, _. split; [reflexivity|].
    rewrite links_ok_snoc, Hlinks.
    rewrite Hchain in Hlast.
    rewrite <- (default_last_cons first first rest), Hlast.
    unfold linked. cbn [default previous_hash proof andb].
    rewrite String.eqb_refl. exact Hproof.
Qed.

(** A pair of neighbouring blocks that fails a check makes the whole chain
    invalid, whatever the rest of the chain is. *)
Lemma valid_chain_broken_link (chain : list Block) (i : nat) (a b : Block) :
  chain !! i = Some a ->
  chain !! S i = Some b ->
  linked a b = false ->
  valid_chain chain = Ok false.
Proof.
  destruct chain as [|first rest]; [discriminate|].
  intros Ha Hb Hbad. rewrite valid_chain_cons.
  f_equal. exact (links_ok_broken rest first i a b Ha Hb Hbad).
Qed.

Lemma valid_chain_substituted (chain : list Block) (i : nat) (a b b' : Block) :
  chain !! i = Some a ->
  chain !! S i = Some b ->
  linked a b' = false ->
  valid_chain (<[S i := b']> chain) = Ok false.
Proof.
  intros Ha Hb Hbad.
  apply (valid_chain_broken_link _ i a b'); [| |exact Hbad].
  - rewrite list_lookup_insert_ne by lia. exact Ha.
  - apply list_lookup_insert_eq. apply lookup_lt_Some in Hb. exact Hb.
Qed.

(** C4. [valid_chain] accepts every chain the node builds by [new_block]
    calls from the genesis block, each with a proof accepted by
    [valid_proof] and [previous_hash] omitted; it rejects such a chain once
    a non-genesis block's [previous_hash] is replaced by anything but the
    digest of its predecessor, or its [proof] by one that [valid_proof]
    refuses after the predecessor's. *)
Theorem C4_valid_chain_mined_and_tampered :
  (forall self : Blockchain, mined self -> valid_chain (chain self) = Ok true)
  /\ (forall (self : Blockchain) (i : nat) (a b : Block) (h : string),
        mined self ->
        chain self !! i = Some a ->
        chain self !! S i = Some b ->
        h <> hash (block_dict a) ->
        valid_chain (<[S i := with_previous_hash h b]> (chain self)) = Ok false)
  /\ (forall (self : Blockchain) (i : nat) (a b : Block) (q : Z),
        mined self ->
        chain self !! i = Some a ->
        chain self !! S i = Some b ->
        valid_proof (proof a) q = false ->
        valid_chain (<[S i := with_proof q b]> (chain self)) = Ok false).
Proof.
  split; [|split].
  - intros self Hmined.
    destruct (mined_links self Hmined) as (first & rest & -> & Hlinks).
    rewrite valid_chain_cons, Hlinks. reflexivity.
  - intros self i a b h _ Ha Hb Hh.
    apply (valid_chain_substituted _ i a b); [exact Ha|exact Hb|].
    unfold linked, with_previous_hash. cbn [previous_hash].
    destruct (String.eqb_spec h (hash (block_dict a))); [contradiction|reflexivity].
  - intros self i a b q _ Ha Hb Hq.
    apply (valid_chain_substituted _ i a b); [exact Ha|exact Hb|].
    unfold linked, with_proof. cbn [proof]. rewrite Hq. apply andb_false_r.
Qed.

Lemma C4_valid_chain_mined_and_tampered_witness :
  let genesis := mkBlock 1 "0.0" [] 100 "1" in
  let second := mkBlock 2 "1.0" [] 35293 (hash (block_dict genesis)) in
  let self := (new_block "1.0" 35293 None (init "0.0").2).2 in
  valid_chain (chain self) = Ok true
  /\ valid_chain (<[1%nat := with_previous_hash "0" second]> (chain self)) = Ok false
  /\ valid_chain (<[1%nat := with_proof 7 second]> (chain self)) = Ok false.
Proof.
  intros genesis second self.
  assert (Hm : mined self).
  { apply (mined_block _ _ _ genesis).
    - apply mined_genesis.
    - reflexivity.
    - vm_compute. reflexivity. }
  split; [|split].
  - apply (proj1 C4_valid_chain_mined_and_tampered). exact Hm.
  - apply (proj1 (proj2 C4_valid_chain_mined_and_tampered) self 0%nat genesis second).
    + exact Hm.
    + reflexivity.
    + vm_compute. reflexivity.
    + vm_compute. discriminate.
  - apply (proj2 (proj2 C4_valid_chain_mined_and_tampered) self 0%nat genesis second).
    + exact Hm.
    + reflexivity.
    + vm_compute. reflexivity.
    + vm_compute. reflexivity.
Defined.

(** ** Proof of work *)

Lemma prefix_0000 (d : string) :
  (if String.eqb (substring 0 4 d) "0000" then true else false) = true
  <-> (forall i : nat, (i < 4)%nat -> String.get i d = Some "0"%char).
Proof.
  split.
  - intros H i Hi.
    destruct (String.eqb_spec (substring 0 4 d) "0000") as [E|]; [|discriminate].
    destruct d as [|c0 [|c1 [|c2 [|c3 r]]]]; try discriminate E.
    cbn in E. injection E as -> -> -> -> _.
    destruct i as [|[|[|[|i]]]]; try reflexivity. lia.
  - intros H.
    assert (H0 := H 0%nat ltac:(lia)). assert (H1 := H 1%nat ltac:(lia)).
    assert (H2 := H 2%nat ltac:(lia)). assert (H3 := H 3%nat ltac:(lia)).
    destruct d as [|c0 [|c1 [|c2 [|c3 r]]]]; try discriminate.
    cbn in H0, H1, H2, H3.
    injection H0 as ->. injection H1 as ->. injection H2 as ->. injection H3 as ->.
    destruct r; reflexivity.
Qed.

(** C6. [valid_proof(p, q)] is true exactly when the first four characters of
    the hexadecimal SHA-256 digest of the decimal text of [p] followed by
    the decimal text of [q] are all the character [0]. *)
Theorem C6_valid_proof_iff_four_leading_zeros (p q : Z) :
  valid_proof p q = true
  <-> (forall i : nat, (i < 4)%nat ->
         String.get i (sha256_hex (str_int p ++ str_int q)%string) = Some "0"%char).
Proof.
  unfold valid_proof. apply prefix_0000.
Qed.

(** The search started at [start] stops at the first accepted candidate,
    provided one exists [n] steps ahead at most. *)
Lemma proof_of_work_loop_first (n : nat) :
  forall (p start : Z),
    valid_proof p (start + Z.of_nat n) = true ->
    exists r : Z,
      start <= r <= start + Z.of_nat n
      /\ valid_proof p r = true
      /\ (forall q' : Z, start <= q' < r -> valid_proof p q' = false)
      /\ (forall fuel : nat, (Z.to_nat (r - start) < fuel)%nat ->
            proof_of_work_loop fuel p start = Ok r).
Proof.
  induction n as [|n IH]; intros p start Hq.
  - replace (start + Z.of_nat 0) with start in * by lia.
    exists start. repeat split; try lia.
    + exact Hq.
    + intros [|fuel] Hfuel; [lia|]. cbn [proof_of_work_loop]. rewrite Hq. reflexivity.
  - destruct (valid_proof p start) eqn:Hstart.
    + exists start. repeat split; try lia.
      * exact Hstart.
      * intros [|fuel] Hfuel; [lia|]. cbn [proof_of_work_loop]. rewrite Hstart. reflexivity.
    + destruct (IH p (start + 1)) as (r & Hr & Hvalid & Hfirst & Hrun).
      { replace (start + 1 + Z.of_nat n) with (start + Z.of_nat (S n)) by lia. exact Hq. }
      exists r. repeat split; try lia.
      * exact Hvalid.
      * intros q' Hq'. destruct (Z.eq_dec q' start) as [->|]; [exact Hstart|].
        apply Hfirst. lia.
      * intros [|fuel] Hfuel; [lia|]. cbn [proof_of_work_loop]. rewrite Hstart.
        cbn [negb]. apply Hrun. lia.
Qed.

(** C5. Whenever some non-negative [q] satisfies [valid_proof(p, q)], the
    search of [proof_of_work(p)] ends: with enough iterations it returns
    one value [r], which is accepted, and no smaller non-negative candidate
    is accepted. *)
Theorem C5_proof_of_work_returns_least (p q : Z) :
  0 <= q ->
  valid_proof p q = true ->
  exists r : Z,
    (exists fuel0 : nat, forall fuel : nat, (fuel0 <= fuel)%nat ->
        proof_of_work fuel p = Ok r)
    /\ 0 <= r
    /\ valid_proof p r = true
    /\ (forall q' : Z, 0 <= q' < r -> valid_proof p q' = false).
Proof.
  intros Hq Hvalid.
  destruct (proof_of_work_loop_first (Z.to_nat q) p 0) as (r & Hr & Hr1 & Hr2 & Hrun).
  { rewrite Z2Nat.id by lia. exact Hvalid. }
  exists r. split; [|split; [lia|split; [exact Hr1|exact Hr2]]].
  exists (S (Z.to_nat r)). intros fuel Hfuel. apply Hrun.
  rewrite Z.sub_0_r. lia.
Qed.

Lemma C5_proof_of_work_returns_least_witness :
  exists r : Z,
    (exists fuel0 : nat, forall fuel : nat, (fuel0 <= fuel)%nat ->
        proof_of_work fuel 100 = Ok r)
    /\ 0 <= r
    /\ valid_proof 100 r = true
    /\ (forall q' : Z, 0 <= q' < r -> valid_proof 100 q' = false).
Proof.
  apply (C5_proof_of_work_returns_least 100 35293).
  - lia.
  - vm_compute. reflexivity.
Defined.

(** ** Committing a block *)

(** C9. [new_block] keeps a supplied [previous_hash] only when it is truthy:
    a non-empty string is stored as given, in any state; for the empty
    string and for [None] the stored value is the digest of the block that
    is last at the call. *)
Theorem C9_new_block_previous_hash_truthiness :
  (forall (now : string) (p : Z) (h : string) (self : Blockchain),
      h <> ""%string ->
      exists (block : Block) (self' : Blockchain),
        new_block now p (Some h) self = (Ok block, self')
        /\ previous_hash block = h)
  /\ (forall (now : string) (p : Z) (supplied : option string)
             (self : Blockchain) (prev : Block),
        supplied = None \/ supplied = Some ""%string ->
        last (chain self) = Some prev ->
        exists (block : Block) (self' : Blockchain),
          new_block now p supplied self = (Ok block, self')
          /\ previous_hash block = hash (block_dict prev)).
Proof.
  split.
  - intros now p h self Hh. unfold new_block. cbn [py_or].
    destruct (String.eqb_spec h ""); [contradiction|].
    eexists _, _. split; reflexivity.
  - intros now p supplied self prev [-> | ->] Hlast;
      unfold new_block, last_block; rewrite Hlast; cbn [py_or String.eqb];
      eexists _, _; split; reflexivity.
Qed.

Lemma C9_new_block_previous_hash_truthiness_witness :
  (exists (block : Block) (self' : Blockchain),
      new_block "1.0" 7 (Some "abc"%string) blank = (Ok block, self')
      /\ previous_hash block = "abc"%string)
  /\ (exists (block : Block) (self' : Blockchain),
        new_block "1.0" 7 (Some ""%string) (init "0.0").2 = (Ok block, self')
        /\ previous_hash block = hash (block_dict (mkBlock 1 "0.0" [] 100 "1"))).
Proof.
  split.
  - apply (proj1 C9_new_block_previous_hash_truthiness). discriminate.
  - apply (proj2 C9_new_block_previous_hash_truthiness).
    + right. reflexivity.
    + reflexivity.
Defined.

(** What [new_block] does to the object: nothing when it raises, otherwise
    one block numbered by the length of the chain is appended and the pool
    is emptied. *)
Lemma new_block_cases (now : string) (p : Z) (supplied : option string) (self : Blockchain) :
  (exists e : exn, new_block now p supplied self = (Raise e, self))
  \/ (exists h : string,
        let block := mkBlock (Z.of_nat (length (chain self)) + 1) now
                             (current_transactions self) p h in
        new_block now p supplied self
        = (Ok block, mkBlockchain (chain self ++ [block]) [] (nodes self))).
Proof.
  unfold new_block.
  destruct (py_or supplied _) as [h|e|] eqn:E.
  - right. exists h. reflexivity.
  - left. exists e. reflexivity.
  - exfalso. unfold py_or, last_block in E.
    destruct supplied as [h|]; [destruct (String.eqb h "")|];
      destruct (last (chain self)); discriminate E.
Qed.



(** ** Reachable states *)

Lemma adopted_reachable : reachable any_chain adopted.
Proof.
  unfold adopted. apply reach_resolve_conflicts; [intros; exact I|].
  apply reach_register_node. apply reach_init.
Qed.

Lemma adopted_chain : chain adopted = [forged_first; forged_second].
Proof. vm_compute. reflexivity. Qed.

(** C2, counterexample. The forged chain passes [valid_chain] and is
    adopted: the state is reachable and its first block has index 7. *)
Lemma C2_counterexample :
  reachable any_chain adopted
  /\ valid_chain [forged_first; forged_second] = Ok true
  /\ chain adopted !! 0%nat = Some forged_first
  /\ index forged_first = 7
  /\ ~ (forall self : Blockchain, reachable any_chain self -> indexed (chain self)).
Proof.
  split; [exact adopted_reachable|].
  split; [vm_compute; reflexivity|].
  split; [rewrite adopted_chain; reflexivity|].
  split; [reflexivity|].
  intros H. specialize (H adopted adopted_reachable 0%nat forged_first).
  rewrite adopted_chain in H. specialize (H eq_refl). discriminate H.
Qed.


(** ** Conflict resolution *)

Section ResolveFacts.

Variable get : string -> result Response.

(** An iteration either keeps the loop variables or takes the reported
    length and the chain of a response whose chain passed [valid_chain]. *)
Lemma resolve_step_cases (max_length : Z) (new_chain : option (list Block))
    (node : string) (acc' : Z * option (list Block)) :
  resolve_step get (max_length, new_chain) node = Ok acc' ->
  acc' = (max_length, new_chain)
  \/ (exists r : Response,
        get ("http://" ++ node ++ "/chain")%string = Ok r
        /\ status_code r = 200
        /\ json_length r > max_length
        /\ valid_chain (json_chain r) = Ok true
        /\ acc' = (json_length r, Some (json_chain r))).
Proof.
  unfold resolve_step.
  destruct (get _) as [r|e|] eqn:Hget; try discriminate.
  destruct (Z.eqb_spec (status_code r) 200) as [Hstatus|]; [|intros [= <-]; left; reflexivity].
  destruct (Z.gtb_spec (json_length r) max_length) as [Hlen|];
    [|intros [= <-]; left; reflexivity].
  destruct (valid_chain (json_chain r)) as [[|]|e|] eqn:Hvalid; try discriminate.
  - intros [= <-]. right. exists r. repeat split; try assumption. lia.
  - intros [= <-]. left. reflexivity.
Qed.

Lemma resolve_scan_cases (neighbours : list string) :
  forall (max_length : Z) (new_chain : option (list Block))
         (acc' : Z * option (list Block)),
    resolve_scan get neighbours (max_length, new_chain) = Ok acc' ->
    acc'.2 = new_chain
    \/ (exists (url : string) (r : Response),
          get url = Ok r
          /\ valid_chain (json_chain r) = Ok true
          /\ acc'.2 = Some (json_chain r)).
Proof.
  induction neighbours as [|node rest IH]; intros max_length new_chain acc'.
  - intros [= <-]. left. reflexivity.
  - cbn [resolve_scan].
    destruct (resolve_step get (max_length, new_chain) node) as [[m nc]|e|] eqn:Hstep;
      try discriminate.
    intros Hscan.
    destruct (resolve_step_cases _ _ _ _ Hstep) as [[= -> ->] | (r & Hget & _ & _ & Hvalid & [= -> ->])].
    + exact (IH _ _ _ Hscan).
    + destruct (IH _ _ _ Hscan) as [Hsame | Hother]; [|right; exact Hother].
      right. exists ("http://" ++ node ++ "/chain")%string, r. auto.
Qed.

(** The chain after [resolve_conflicts] is the chain before it, or the
    chain of some response, which passed [valid_chain]. *)
Lemma resolve_conflicts_chain (self : Blockchain) :
  chain (resolve_conflicts get self).2 = chain self
  \/ (exists (url : string) (r : Response),
        get url = Ok r
        /\ valid_chain (json_chain r) = Ok true
        /\ chain (resolve_conflicts get self).2 = json_chain r).
Proof.
  unfold resolve_conflicts, resolve_conflicts_over.
  destruct (resolve_scan get _ _) as [[m nc]|e|] eqn:Hscan;
    [|left; reflexivity|left; reflexivity].
  destruct (nonempty_chain nc) eqn:Hne; [|left; reflexivity].
  destruct (resolve_scan_cases _ _ _ _ Hscan) as [Hnone | (url & r & Hget & Hvalid & Hnc)];
    cbn [snd] in *.
  - subst nc. discriminate Hne.
  - right. exists url, r. subst nc. auto.
Qed.

Lemma resolve_scan_nothing (neighbours : list string) (max_length : Z) :
  Forall (offers_nothing get max_length) neighbours ->
  resolve_scan get neighbours (max_length, None) = Ok (max_length, None).
Proof.
  induction 1 as [|node rest (r & Hget & Hr) _ IH]; [reflexivity|].
  cbn [resolve_scan]. unfold resolve_step. rewrite Hget.
  destruct (Z.eqb_spec (status_code r) 200) as [Hstatus|]; [|exact IH].
  destruct (Z.gtb_spec (json_length r) max_length) as [Hlen|]; [|exact IH].
  destruct Hr as [Hr | [Hr | Hr]]; [contradiction|lia|].
  rewrite Hr. exact IH.
Qed.

End ResolveFacts.

(** C1. When every neighbour answers and none offers a strictly longer
    chain that passes [valid_chain], [resolve_conflicts] leaves the object
    as it is, also when called again, and what it returns is [None]: the
    function has no [return] after the [if], so [False] is never
    returned. *)
Theorem C1_resolve_conflicts_returns_None
    (get : string -> result Response) (self : Blockchain) :
  (forall node : string, node ∈ nodes self ->
     offers_nothing get (Z.of_nat (length (chain self))) node) ->
  resolve_conflicts get self = (Ok PyNone, self)
  /\ resolve_conflicts get (resolve_conflicts get self).2 = (Ok PyNone, self)
  /\ PyNone <> PyBool false.
Proof.
  intros Hpeers.
  assert (H : resolve_conflicts get self = (Ok PyNone, self)).
  { unfold resolve_conflicts, resolve_conflicts_over.
    rewrite resolve_scan_nothing; [reflexivity|].
    apply Forall_forall. intros node Hin. apply Hpeers.
    apply elem_of_elements. exact Hin. }
  split; [exact H|]. split; [|discriminate].
  rewrite H. exact H.
Qed.

Lemma C1_resolve_conflicts_returns_None_witness :
  resolve_conflicts forged_get (init "0.0").2 = (Ok PyNone, (init "0.0").2)
  /\ resolve_conflicts forged_get (resolve_conflicts forged_get (init "0.0").2).2
     = (Ok PyNone, (init "0.0").2)
  /\ PyNone <> PyBool false.
Proof.
  apply (C1_resolve_conflicts_returns_None forged_get (init "0.0").2).
  intros node Hin. exfalso. exact (not_elem_of_empty (C := gset string) node Hin).
Defined.

(** ** The numbering of the blocks *)

Lemma indexed_snoc (chain : list Block) (block : Block) :
  indexed chain ->
  index block = Z.of_nat (length chain) + 1 ->
  indexed (chain ++ [block]).
Proof.
  intros Hchain Hblock n b Hn.
  destruct (lookup_app_Some chain [block] n b) as [Hcases _].
  destruct (Hcases Hn) as [Hin | [Hge Hlast]].
  - exact (Hchain n b Hin).
  - destruct (n - length chain)%nat as [|k] eqn:Hk; [|destruct k; discriminate Hlast].
    injection Hlast as <-. rewrite Hblock. lia.
Qed.

(** C2 (amended). In every state reached from construction by
    [new_transaction], [new_block], [register_node] and [resolve_conflicts],
    with peers whose chains are numbered by position, block [n] of the
    chain has index [n], counting from 1. *)
Theorem C2_index_equals_position (self : Blockchain) :
  reachable indexed self -> indexed (chain self).
Proof.
  induction 1 as [now | self s r a _ IH | self now p supplied _ IH
                  | self check address _ IH | self get Hpeers _ IH].
  - intros [|n] b Hn; [|destruct n; discriminate Hn].
    injection Hn as <-. reflexivity.
  - rewrite new_transaction_state. exact IH.
  - destruct (new_block_cases now p supplied self) as [[e ->] | [h ->]]; [exact IH|].
    cbn [snd chain]. apply indexed_snoc; [exact IH|reflexivity].
  - unfold register_node. destruct (URL.netloc check address); exact IH.
  - destruct (resolve_conflicts_chain get self) as [-> | (url & r & Hget & _ & ->)];
      [exact IH|].
    exact (Hpeers url r Hget).
Qed.

Lemma C2_index_equals_position_witness :
  indexed (chain (new_block "1.0" 35293 None (init "0.0").2).2).
Proof.
  apply C2_index_equals_position. apply reach_new_block. apply reach_init.
Defined.

(** ** The digest and the order of the fields *)

Lemma dumps_list (sort_keys : bool) (l : list json) :
  dumps sort_keys (JList l)
  = ("[" ++ join ", " (map (dumps sort_keys) l) ++ "]")%string.
Proof. reflexivity. Qed.

Lemma dumps_dict (sort_keys : bool) (items : list (string * json)) :
  dumps sort_keys (JDict items)
  = ("{" ++ join ", " (map dump_item
            (sort_items sort_keys
               (map (fun kv => (kv.1, dumps sort_keys kv.2)) items))) ++ "}")%string.
Proof. reflexivity. Qed.

#[local] Instance key_le_transitive : Transitive key_le.
Proof. intros a b c. unfold key_le. apply transitivity. Qed.

#[local] Instance key_le_total : Total key_le.
Proof. intros a b. unfold key_le. apply total, _. Qed.

Lemma NoDup_keys_inj {V : Type} (l : list (string * V)) (x y : string * V) :
  NoDup (map fst l) -> In x l -> In y l -> x.1 = y.1 -> x = y.
Proof.
  induction l as [|z l IH]; intros Hnd Hx Hy Hk; [destruct Hx|].
  cbn [map] in Hnd. apply NoDup_cons in Hnd as [Hz Hnd].
  destruct Hx as [-> | Hx], Hy as [-> | Hy].
  - reflexivity.
  - exfalso. apply Hz, list_elem_of_In. rewrite Hk. apply in_map. exact Hy.
  - exfalso. apply Hz, list_elem_of_In. rewrite <- Hk. apply in_map. exact Hx.
  - exact (IH Hnd Hx Hy Hk).
Qed.

(** With distinct keys the sorted order does not depend on the order in
    which the items came. *)
Lemma merge_sort_keys_canonical (l1 l2 : list (string * string)) :
  NoDup (map fst l1) ->
  Permutation l1 l2 ->
  merge_sort key_le l1 = merge_sort key_le l2.
Proof.
  intros Hnd Hperm.
  apply (Sorted_unique_strong key_le).
  - intros x1 x2 Hx1 Hx2 H12 H21.
    apply (NoDup_keys_inj l1); [exact Hnd| | |].
    + apply list_elem_of_In. rewrite <- (merge_sort_Permutation key_le l1). exact Hx1.
    + apply list_elem_of_In. rewrite Hperm, <- (merge_sort_Permutation key_le l2). exact Hx2.
    + unfold key_le in H12, H21. apply (anti_symm String.le); assumption.
  - apply Sorted_merge_sort, _.
  - apply Sorted_merge_sort, _.
  - rewrite !merge_sort_Permutation. exact Hperm.
Qed.

Lemma dumps_equiv_sized (n : nat) :
  forall j1 j2 : json,
    (json_size j1 < n)%nat ->
    json_equiv j1 j2 ->
    dumps true j1 = dumps true j2.
Proof.
  induction n as [|n IH]; intros j1 j2 Hsize Hequiv; [lia|].
  destruct Hequiv as [ | | | | | l1 l2 Hall | items1 items2 reordered Hnd Hperm Hall];
    try reflexivity.
  - rewrite !dumps_list. do 3 f_equal.
    cbn [json_size] in Hsize. apply PeanoNat.lt_S_n in Hsize. unfold list_sum in Hsize.
    induction Hall as [|a b l1 l2 Hab _ IHall]; [reflexivity|].
    cbn [map fold_right] in *. f_equal; [apply IH; [lia|exact Hab]|apply IHall; lia].
  - rewrite !dumps_dict. do 4 f_equal. unfold sort_items.
    cbn [json_size] in Hsize. apply PeanoNat.lt_S_n in Hsize. unfold list_sum in Hsize.
    assert (Hmap : map (fun kv => (kv.1, dumps true kv.2)) items1
                   = map (fun kv => (kv.1, dumps true kv.2)) reordered).
    { clear Hnd Hperm.
      induction Hall as [|a b l1 l2 [Hk Hab] _ IHall]; [reflexivity|].
      cbn [map fold_right] in *. f_equal; [|apply IHall; lia].
      rewrite Hk. f_equal. apply IH; [lia|exact Hab]. }
    apply merge_sort_keys_canonical.
    + rewrite map_map. cbn [fst]. exact Hnd.
    + rewrite Hmap. apply Permutation_map. symmetry. exact Hperm.
Qed.

Lemma dumps_equiv (j1 j2 : json) :
  json_equiv j1 j2 -> dumps true j1 = dumps true j2.
Proof. apply (dumps_equiv_sized (S (json_size j1))). lia. Qed.

(** The fields of a block, in any order, present the block. *)
Lemma transaction_dict_equiv (t : Transaction) :
  json_equiv (transaction_dict t) (transaction_dict t).
Proof.
  unfold transaction_dict. eapply equiv_dict; [|reflexivity|].
  - apply (bool_decide_unpack _). vm_compute. reflexivity.
  - repeat constructor.
Qed.

Lemma block_fields_equiv (b : Block) (items : list (string * json)) :
  Permutation items
    [ ("index", JInt (index b));
      ("timestamp", JFloat (timestamp b));
      ("transactions", JList (map transaction_dict (transactions b)));
      ("proof", JInt (proof b));
      ("previous_hash", JStr (previous_hash b)) ]%string ->
  json_equiv (block_dict b) (JDict items).
Proof.
  intros Hperm. unfold block_dict. eapply equiv_dict; [|exact Hperm|].
  - apply (bool_decide_unpack _). vm_compute. reflexivity.
  - repeat constructor; cbn [snd].
    clear Hperm. induction (transactions b) as [|t ts IH]; cbn [map]; constructor;
      [apply transaction_dict_equiv|exact IH].
Qed.

(** C7. [hash] is a function of the data of the block, not of the order of
    its fields: two dictionaries that present the same keys with the same
    values, at every level and in any order, have the same digest; so the
    fields of a block in any order give the digest of the block, and the
    same block gives the same digest each time. *)
Theorem C7_hash_canonical_field_order :
  (forall block1 block2 : json, json_equiv block1 block2 -> hash block1 = hash block2)
  /\ (forall (b : Block) (items : list (string * json)),
        Permutation items
          [ ("index", JInt (index b));
            ("timestamp", JFloat (timestamp b));
            ("transactions", JList (map transaction_dict (transactions b)));
            ("proof", JInt (proof b));
            ("previous_hash", JStr (previous_hash b)) ]%string ->
        hash (JDict items) = hash (block_dict b))
  /\ (forall block1 block2 : json, block1 = block2 -> hash block1 = hash block2).
Proof.
  split; [|split].
  - intros block1 block2 Hequiv. unfold hash. rewrite (dumps_equiv _ _ Hequiv). reflexivity.
  - intros b items Hperm. unfold hash.
    rewrite (dumps_equiv _ _ (block_fields_equiv b items Hperm)). reflexivity.
  - intros block1 block2 ->. reflexivity.
Qed.

Lemma C7_hash_canonical_field_order_witness :
  hash (JDict [ ("previous_hash", JStr "1");
                ("proof", JInt 100);
                ("transactions", JList (map transaction_dict [mkTransaction "a" "b" 5]));
                ("timestamp", JFloat "0.0");
                ("index", JInt 1) ]%string)
  = hash (block_dict (mkBlock 1 "0.0" [mkTransaction "a" "b" 5] 100 "1")).
Proof.
  apply (proj1 (proj2 C7_hash_canonical_field_order)
           (mkBlock 1 "0.0" [mkTransaction "a" "b" 5] 100 "1")).
  symmetry.
  apply (Permutation_rev
           [ ("index", JInt 1);
             ("timestamp", JFloat "0.0");
             ("transactions", JList (map transaction_dict [mkTransaction "a" "b" 5]));
             ("proof", JInt 100);
             ("previous_hash", JStr "1") ]%string).
Defined.

(** ** Registering a peer *)

Lemma append_cons (c : ascii) (s t : string) :
  (String c s ++ t)%string = String c (s ++ t)%string.
Proof. reflexivity. Qed.

Lemma append_nil_l (t : string) : (EmptyString ++ t)%string = t.
Proof. reflexivity. Qed.

Lemma all_chars_impl (p q : ascii -> bool) (s : string) :
  (forall c, p c = true -> q c = true) -> all_chars p s = true -> all_chars q s = true.
Proof.
  intros Hpq. induction s as [|c s IH]; [reflexivity|].
  cbn [all_chars]. rewrite !andb_true_iff. intros [Hc Hs]. auto.
Qed.

Lemma find_lower (c : ascii) (s : string) : -1 <= URL.find c s.
Proof.
  induction s as [|d s IH]; cbn [URL.find]; [lia|].
  destruct (Ascii.eqb d c); [lia|].
  destruct (Z.ltb_spec (URL.find c s) 0); lia.
Qed.

Lemma find_app_differs (c : ascii) (s t : string) :
  all_chars (differs c) s = true ->
  URL.find c (s ++ t)
  = if URL.find c t <? 0 then -1 else Z.of_nat (String.length s) + URL.find c t.
Proof.
  induction s as [|d s IH]; intros Hs.
  - rewrite append_nil_l. cbn [String.length]. pose proof (find_lower c t).
    destruct (Z.ltb_spec (URL.find c t) 0); lia.
  - cbn [all_chars] in Hs. apply andb_true_iff in Hs as [Hd Hs].
    rewrite append_cons. cbn [URL.find String.length].
    unfold differs in Hd. apply negb_true_iff in Hd. rewrite Hd, (IH Hs).
    pose proof (find_lower c t).
    destruct (Z.ltb_spec (URL.find c t) 0);
      [reflexivity|].
    destruct (Z.ltb_spec (Z.of_nat (String.length s) + URL.find c t) 0); lia.
Qed.

Lemma find_differs (c : ascii) (s : string) :
  all_chars (differs c) s = true -> URL.find c s = -1.
Proof.
  induction s as [|d s IH]; [reflexivity|].
  cbn [all_chars URL.find]. intros [Hd Hs]%andb_true_iff.
  unfold differs in Hd. apply negb_true_iff in Hd. rewrite Hd, (IH Hs). reflexivity.
Qed.

Lemma differs_find (c : ascii) (s : string) :
  URL.find c s < 0 -> all_chars (differs c) s = true.
Proof.
  induction s as [|d s IH]; [reflexivity|].
  cbn [all_chars URL.find]. unfold differs at 1.
  destruct (Ascii.eqb d c); [lia|].
  pose proof (find_lower c s).
  destruct (Z.ltb_spec (URL.find c s) 0); [|lia].
  intros _. apply IH. assumption.
Qed.

Lemma take_app_length (s t : string) : URL.take (String.length s) (s ++ t) = s.
Proof.
  induction s as [|c s IH]; [destruct t; reflexivity|].
  rewrite append_cons. cbn [String.length URL.take]. rewrite IH. reflexivity.
Qed.

Lemma drop_app_length (s t : string) : URL.drop (String.length s) (s ++ t) = t.
Proof.
  induction s as [|c s IH]; [destruct t; reflexivity|].
  rewrite append_cons. cbn [String.length URL.drop]. exact IH.
Qed.

Lemma length_append (s t : string) :
  String.length (s ++ t) = (String.length s + String.length t)%nat.
Proof.
  induction s as [|c s IH]; [reflexivity|].
  rewrite append_cons. cbn [String.length]. rewrite IH. reflexivity.
Qed.

Lemma remove_unsafe_app (s t : string) :
  URL.remove_unsafe (s ++ t) = (URL.remove_unsafe s ++ URL.remove_unsafe t)%string.
Proof.
  induction s as [|c s IH]; [reflexivity|].
  rewrite append_cons. cbn [URL.remove_unsafe]. rewrite IH.
  destruct (URL.unsafe c); reflexivity.
Qed.

Lemma remove_unsafe_safe (s : string) :
  all_chars (fun c => negb (URL.unsafe c)) s = true -> URL.remove_unsafe s = s.
Proof.
  induction s as [|c s IH]; [reflexivity|].
  cbn [all_chars URL.remove_unsafe]. intros [Hc Hs]%andb_true_iff.
  apply negb_true_iff in Hc. rewrite Hc, (IH Hs). reflexivity.
Qed.

Lemma all_scheme_chars_all (s : string) :
  URL.all_scheme_chars s = all_chars URL.is_scheme_char s.
Proof. induction s as [|c s IH]; [reflexivity|]. cbn. rewrite IH. reflexivity. Qed.

Lemma scheme_char_facts (c : ascii) :
  URL.is_scheme_char c = true ->
  URL.unsafe c = false /\ differs ":" c = true.
Proof.
  destruct c as [[] [] [] [] [] [] [] []]; vm_compute; intros H;
    first [discriminate H | split; reflexivity].
Qed.

Lemma alpha_not_stripped (c : ascii) :
  URL.is_alpha c = true -> (URL.code c <=? 32) = false.
Proof.
  destruct c as [[] [] [] [] [] [] [] []]; vm_compute; intros H;
    first [discriminate H | reflexivity].
Qed.

Lemma delimiter_safe (c : ascii) :
  Ascii.eqb c "/" || Ascii.eqb c "?" || Ascii.eqb c "#" = true -> URL.unsafe c = false.
Proof.
  destruct c as [[] [] [] [] [] [] [] []]; vm_compute; intros H;
    first [discriminate H | reflexivity].
Qed.

Lemma starts_path_remove_unsafe (rest : string) :
  starts_path rest = true -> starts_path (URL.remove_unsafe rest) = true.
Proof.
  destruct rest as [|c r]; [reflexivity|].
  cbn [starts_path URL.remove_unsafe]. intros H.
  rewrite (delimiter_safe c H). exact H.
Qed.

Lemma authority_char_facts (s : string) :
  all_chars authority_char s = true ->
  all_chars (fun c => negb (URL.unsafe c)) s = true
  /\ all_chars (differs "/") s = true
  /\ all_chars (differs "?") s = true
  /\ all_chars (differs "#") s = true
  /\ all_chars (differs "[") s = true
  /\ all_chars (differs "]") s = true.
Proof.
  intros H. repeat split; revert H; apply all_chars_impl; intros c;
    unfold authority_char; rewrite !andb_true_iff; tauto.
Qed.

Lemma strip_scheme_found (c0 : ascii) (s0 t : string) :
  URL.is_alpha c0 = true ->
  URL.all_scheme_chars (String c0 s0) = true ->
  URL.strip_scheme (String c0 s0 ++ String ":" t) = t.
Proof.
  intros Halpha Hscheme.
  assert (Hcolon : all_chars (differs ":") (String c0 s0) = true).
  { rewrite all_scheme_chars_all in Hscheme. revert Hscheme.
    apply all_chars_impl. intros c Hc. apply (scheme_char_facts c Hc). }
  unfold URL.strip_scheme.
  rewrite (find_app_differs ":" (String c0 s0) (String ":" t) Hcolon).
  change (URL.find ":" (String ":" t)) with 0.
  change (0 <? 0) with false. cbv iota. rewrite Z.add_0_r.
  rewrite append_cons at 1.
  rewrite Nat2Z.id, take_app_length, Hscheme, Halpha.
  change (0 <? Z.of_nat (String.length (String c0 s0))) with true.
  cbn [andb].
  replace (String.length (String c0 s0) + 1)%nat with (S (String.length (String c0 s0))) by lia.
  revert t. generalize (String c0 s0). clear.
  intros s. induction s as [|c s IH]; intros t; [reflexivity|].
  rewrite append_cons. cbn [String.length URL.drop]. apply IH.
Qed.

Lemma splitnetloc_authority (authority rest : string) :
  all_chars authority_char authority = true ->
  starts_path rest = true ->
  URL.splitnetloc (String "/" (String "/" (authority ++ rest))) = authority.
Proof.
  intros Hauth Hrest.
  destruct (authority_char_facts authority Hauth) as (_ & Hslash & Hquery & Hfrag & _ & _).
  unfold URL.splitnetloc, URL.find_from. cbn [URL.drop fold_left String.length].
  rewrite (find_app_differs "/" authority rest Hslash),
          (find_app_differs "?" authority rest Hquery),
          (find_app_differs "#" authority rest Hfrag), length_append.
  pose proof (find_lower "/" rest) as L1.
  pose proof (find_lower "?" rest) as L2.
  pose proof (find_lower "#" rest) as L3.
  assert (Hdelim :
    (String.length rest = 0%nat
     /\ URL.find "/" rest = -1 /\ URL.find "?" rest = -1 /\ URL.find "#" rest = -1)
    \/ URL.find "/" rest = 0 \/ URL.find "?" rest = 0 \/ URL.find "#" rest = 0).
  { destruct rest as [|c r]; [left; repeat split; reflexivity|right].
    cbn [starts_path] in Hrest. cbn [URL.find].
    destruct (Ascii.eqb c "/"); [left; reflexivity|].
    destruct (Ascii.eqb c "?"); [right; left; reflexivity|].
    destruct (Ascii.eqb c "#"); [right; right; reflexivity|discriminate Hrest]. }
  match goal with
  | |- URL.take ?n _ = _ => replace n with (String.length authority)
  end; [apply take_app_length|].
  generalize dependent (URL.find "/" rest). generalize dependent (URL.find "?" rest).
  generalize dependent (URL.find "#" rest). generalize (String.length rest).
  generalize (String.length authority). clear.
  intros la lr f3 L3 f2 L2 f1 L1 Hdelim.
  destruct (Z.ltb_spec f1 0), (Z.ltb_spec f2 0), (Z.ltb_spec f3 0);
  repeat match goal with
         | |- context [?a <? ?b] => destruct (Z.ltb_spec a b)
         | |- context [?a <=? ?b] => destruct (Z.leb_spec a b)
         end; lia.
Qed.

(** The authority of [scheme://authority] followed by nothing or by a path,
    a query or a fragment. *)
Lemma netloc_with_scheme (check : string -> bool) (c0 : ascii) (s0 authority rest : string) :
  URL.is_alpha c0 = true ->
  URL.all_scheme_chars (String c0 s0) = true ->
  all_chars authority_char authority = true ->
  starts_path rest = true ->
  URL.netloc check (String c0 s0 ++ "://" ++ authority ++ rest) = Ok authority.
Proof.
  intros Halpha Hscheme Hauth Hrest.
  destruct (authority_char_facts authority Hauth) as (Hsafe & _ & _ & _ & Hopen & Hclose).
  unfold URL.netloc.
  rewrite append_cons. cbn [URL.lstrip]. rewrite (alpha_not_stripped c0 Halpha).
  rewrite <- append_cons.
  rewrite !remove_unsafe_app, (remove_unsafe_safe authority Hsafe).
  rewrite (remove_unsafe_safe (String c0 s0)).
  2:{ rewrite all_scheme_chars_all in Hscheme. revert Hscheme.
      apply all_chars_impl. intros c Hc.
      rewrite (proj1 (scheme_char_facts c Hc)). reflexivity. }
  change (URL.remove_unsafe "://") with "://"%string.
  change ("://" ++ authority ++ URL.remove_unsafe rest)%string
    with (String ":" (String "/" (String "/" (authority ++ URL.remove_unsafe rest)))).
  rewrite (strip_scheme_found c0 s0 _ Halpha Hscheme).
  cbn [URL.take String.eqb Ascii.eqb Bool.eqb].
  rewrite (splitnetloc_authority authority _ Hauth (starts_path_remove_unsafe rest Hrest)).
  unfold URL.contains.
  rewrite (find_differs "[" authority Hopen), (find_differs "]" authority Hclose).
  reflexivity.
Qed.







(** * Further properties of the code *)

(** ** More on chain validation *)

Lemma links_ok_app (prev : Block) (rest1 rest2 : list Block) :
  links_ok prev (rest1 ++ rest2)
  = links_ok prev rest1 && links_ok (default prev (last rest1)) rest2.
Proof.
  revert prev. induction rest1 as [|b rest1 IH]; intros prev; [reflexivity|].
  cbn [app links_ok]. rewrite IH, andb_assoc, default_last_cons. reflexivity.
Qed.

Lemma valid_chain_not_out_of_fuel (chain : list Block) : valid_chain chain <> OutOfFuel.
Proof.
  destruct chain as [|first rest]; [discriminate|].
  rewrite valid_chain_cons. discriminate.
Qed.

Lemma valid_chain_true_nonempty (chain : list Block) :
  valid_chain chain = Ok true -> exists first rest, chain = first :: rest.
Proof. destruct chain as [|first rest]; [discriminate|eauto]. Qed.

(** X1. Every non-empty initial part of a chain that [valid_chain] accepts
    is accepted too. *)
Theorem X1_valid_chain_prefix (chain1 chain2 : list Block) :
  chain1 <> [] ->
  valid_chain (chain1 ++ chain2) = Ok true ->
  valid_chain chain1 = Ok true.
Proof.
  destruct chain1 as [|first rest]; [contradiction|]. intros _.
  rewrite <- app_comm_cons, !valid_chain_cons, links_ok_app.
  intros [= H]. apply andb_true_iff in H as [-> _]. reflexivity.
Qed.

Lemma X1_valid_chain_prefix_witness :
  valid_chain [mkBlock 1 "0.0" [] 100 "1"] = Ok true.
Proof.
  apply (X1_valid_chain_prefix [mkBlock 1 "0.0" [] 100 "1"]
           (drop 1 (chain (new_block "1.0" 35293 None (init "0.0").2).2))).
  - discriminate.
  - vm_compute. reflexivity.
Defined.

(** X2. Of the last block of a chain [valid_chain] reads the [proof] and the
    [previous_hash] only: its index, timestamp and transactions can be
    anything without a change of the verdict. *)
Theorem X2_valid_chain_last_block_payload (chain : list Block) (b b' : Block) :
  proof b = proof b' ->
  previous_hash b = previous_hash b' ->
  valid_chain (chain ++ [b]) = valid_chain (chain ++ [b']).
Proof.
  intros Hproof Hhash. destruct chain as [|first rest]; [reflexivity|].
  rewrite <- !app_comm_cons, !valid_chain_cons, !links_ok_snoc.
  unfold linked. rewrite Hproof, Hhash. reflexivity.
Qed.

Lemma X2_valid_chain_last_block_payload_witness :
  valid_chain ([mkBlock 1 "0.0" [] 100 "1"] ++ [mkBlock 2 "1.0" [] 7 "x"])
  = valid_chain ([mkBlock 1 "0.0" [] 100 "1"]
                   ++ [mkBlock 40 "9.5" [mkTransaction "a" "b" 1000] 7 "x"]).
Proof.
  apply X2_valid_chain_last_block_payload; reflexivity.
Defined.

(** X3. [new_block] does not check the proof it is given: on a chain that
    [valid_chain] accepts, the chain after [new_block(proof)] with
    [previous_hash] omitted is accepted exactly when [valid_proof] accepts
    the proof after the last block's. *)
Theorem X3_new_block_keeps_chain_valid_iff_proof_valid
    (now : string) (p : Z) (self : Blockchain) (prev : Block) :
  last (chain self) = Some prev ->
  valid_chain (chain self) = Ok true ->
  valid_chain (chain (new_block now p None self).2) = Ok (valid_proof (proof prev) p).
Proof.
  intros Hlast Hvalid.
  destruct (valid_chain_true_nonempty _ Hvalid) as (first & rest & Hchain).
  rewrite (new_block_omitted now p self prev Hlast). cbn [snd chain].
  rewrite Hchain in Hvalid, Hlast |- *.
  rewrite valid_chain_cons in Hvalid. injection Hvalid as Hlinks.
  rewrite <- app_comm_cons, valid_chain_cons, links_ok_snoc, Hlinks.
  rewrite <- (default_last_cons first first rest), Hlast.
  unfold linked. cbn [default previous_hash proof andb].
  rewrite String.eqb_refl. reflexivity.
Qed.

Lemma X3_new_block_keeps_chain_valid_iff_proof_valid_witness :
  valid_chain (chain (new_block "1.0" 7 None (init "0.0").2).2)
  = Ok (valid_proof (proof (mkBlock 1 "0.0" [] 100 "1")) 7).
Proof.
  apply X3_new_block_keeps_chain_valid_iff_proof_valid; reflexivity.
Defined.



(** ** More on conflict resolution *)

Section ResolveOutcomes.

Variable get : string -> result Response.

Lemma resolve_step_offer (max_length : Z) (new_chain : option (list Block))
    (node : string) (r : Response) :
  offer get node r ->
  resolve_step get (max_length, new_chain) node
  = Ok (if json_length r >? max_length
        then (json_length r, Some (json_chain r))
        else (max_length, new_chain)).
Proof.
  intros (Hget & Hstatus & Hvalid). unfold resolve_step.
  rewrite Hget, Hstatus, Hvalid. cbn [Z.eqb Pos.eqb].
  destruct (json_length r >? max_length); reflexivity.
Qed.

(** The loop variables after the scan: the greatest reported length of the
    offers seen, and the chain of the first offer that reported it, unless
    no offer reported more than the length the scan started with. *)
Lemma resolve_scan_greatest (neighbours : list string) :
  forall (max_length : Z) (new_chain : option (list Block))
         (max_length' : Z) (new_chain' : option (list Block)),
    resolve_scan get neighbours (max_length, new_chain) = Ok (max_length', new_chain') ->
    (forall (node : string) (r : Response),
        In node neighbours -> offer get node r -> json_length r <= max_length')
    /\ ((max_length' = max_length /\ new_chain' = new_chain)
        \/ (max_length < max_length'
            /\ exists (node : string) (r : Response),
                 In node neighbours /\ offer get node r
                 /\ json_length r = max_length'
                 /\ new_chain' = Some (json_chain r))).
Proof.
  induction neighbours as [|node rest IH]; intros m nc m' nc'.
  - intros [= <- <-]. split; [intros ? ? []|left; split; reflexivity].
  - cbn [resolve_scan].
    destruct (resolve_step get (m, nc) node) as [[m1 nc1]|e|] eqn:Hstep; try discriminate.
    intros Hscan. destruct (IH _ _ _ _ Hscan) as [Hmax Hwho].
    assert (Hmono : m1 <= m')
      by (destruct Hwho as [[-> _] | [Hlt _]]; lia).
    destruct (resolve_step_cases get _ _ _ _ Hstep)
      as [[= -> ->] | (r & Hget & Hstatus & Hlen & Hvalid & [= -> ->])].
    + split.
      * intros node' r' [<- | Hin] Hoffer; [|exact (Hmax node' r' Hin Hoffer)].
        rewrite (resolve_step_offer m nc node r' Hoffer) in Hstep.
        destruct (Z.gtb_spec (json_length r') m) as [Hgt|Hle]; [|lia].
        injection Hstep as Hm _. lia.
      * destruct Hwho as [[-> ->] | (Hlt & node' & r' & Hin & Hrest)];
          [left; split; reflexivity|].
        right. split; [exact Hlt|]. exists node', r'. split; [right; exact Hin|exact Hrest].
    + split.
      * intros node' r' [<- | Hin] Hoffer; [|exact (Hmax node' r' Hin Hoffer)].
        destruct Hoffer as (Hget' & _). rewrite Hget in Hget'.
        injection Hget' as <-. exact Hmono.
      * right. destruct Hwho as [[-> ->] | (Hlt & node' & r' & Hin & Hrest)].
        -- split; [lia|]. exists node, r.
           split; [left; reflexivity|]. repeat split; assumption.
        -- split; [lia|]. exists node', r'. split; [right; exact Hin|exact Hrest].
Qed.

(** What [resolve_conflicts] can do. *)
Lemma resolve_conflicts_cases (self : Blockchain) :
  (exists e : exn, resolve_conflicts get self = (Raise e, self))
  \/ resolve_conflicts get self = (OutOfFuel, self)
  \/ (resolve_conflicts get self = (Ok PyNone, self)
      /\ forall (node : string) (r : Response),
           node ∈ nodes self -> offer get node r ->
           json_length r <= Z.of_nat (length (chain self)))
  \/ (exists (node : string) (r : Response),
        node ∈ nodes self /\ offer get node r
        /\ Z.of_nat (length (chain self)) < json_length r
        /\ (forall (node' : string) (r' : Response),
              node' ∈ nodes self -> offer get node' r' -> json_length r' <= json_length r)
        /\ resolve_conflicts get self
           = (Ok (PyBool true),
              mkBlockchain (json_chain r) (current_transactions self) (nodes self))).
Proof.
  unfold resolve_conflicts, resolve_conflicts_over.
  destruct (resolve_scan get _ _) as [[m nc]|e|] eqn:Hscan;
    [|left; eauto|right; left; reflexivity].
  right. right.
  destruct (resolve_scan_greatest _ _ _ _ _ Hscan) as [Hmax Hwho].
  assert (Hin : forall node, node ∈ nodes self -> In node (elements (nodes self))).
  { intros node Hnode. apply list_elem_of_In, elem_of_elements. exact Hnode. }
  destruct Hwho as [[-> ->] | (Hlt & node & r & Hnode & Hoffer & <- & ->)].
  - left. split; [reflexivity|]. intros node r Hnode Hoffer.
    exact (Hmax node r (Hin node Hnode) Hoffer).
  - right. exists node, r.
    split; [apply elem_of_elements, list_elem_of_In; exact Hnode|].
    split; [exact Hoffer|]. split; [exact Hlt|].
    split; [intros node' r' Hnode' Hoffer'; exact (Hmax node' r' (Hin node' Hnode') Hoffer')|].
    destruct Hoffer as (_ & _ & Hvalid).
    destruct (valid_chain_true_nonempty _ Hvalid) as (first & rest & ->).
    reflexivity.
Qed.

End ResolveOutcomes.

(** X5. A call of [resolve_conflicts] raises and leaves the object as it
    was; or returns [None], leaves it as it was, and no neighbour offered a
    valid chain with a reported length above the local length; or returns
    [True] and has replaced the chain, and nothing else, by the chain of an
    offer whose reported length is above the local length and at least
    that of every other offer. It never returns [False]. *)
Theorem X5_resolve_conflicts_outcomes
    (get : string -> result Response) (self : Blockchain) :
  (exists e : exn, resolve_conflicts get self = (Raise e, self))
  \/ resolve_conflicts get self = (OutOfFuel, self)
  \/ (resolve_conflicts get self = (Ok PyNone, self)
      /\ forall (node : string) (r : Response),
           node ∈ nodes self -> offer get node r ->
           json_length r <= Z.of_nat (length (chain self)))
  \/ (exists (node : string) (r : Response),
        node ∈ nodes self /\ offer get node r
        /\ Z.of_nat (length (chain self)) < json_length r
        /\ (forall (node' : string) (r' : Response),
              node' ∈ nodes self -> offer get node' r' -> json_length r' <= json_length r)
        /\ resolve_conflicts get self
           = (Ok (PyBool true),
              mkBlockchain (json_chain r) (current_transactions self) (nodes self))).
Proof. exact (resolve_conflicts_cases get self). Qed.

(** X6. The reported length decides, not the length of the chain sent: a
    node whose only neighbour reports a length above the local one and
    sends a chain that passes [valid_chain] adopts that chain, however
    short it is. *)
Theorem X6_resolve_conflicts_trusts_reported_length
    (get : string -> result Response) (self : Blockchain) (node : string) (r : Response) :
  nodes self = {[ node ]} ->
  offer get node r ->
  Z.of_nat (length (chain self)) < json_length r ->
  resolve_conflicts get self
  = (Ok (PyBool true),
     mkBlockchain (json_chain r) (current_transactions self) (nodes self)).
Proof.
  intros Hnodes Hoffer Hlen.
  unfold resolve_conflicts, resolve_conflicts_over.
  rewrite Hnodes, elements_singleton. cbn [resolve_scan].
  rewrite (resolve_step_offer get _ _ node r Hoffer).
  destruct (Z.gtb_spec (json_length r) (Z.of_nat (length (chain self)))); [|lia].
  destruct Hoffer as (_ & _ & Hvalid).
  destruct (valid_chain_true_nonempty _ Hvalid) as (first & rest & ->).
  reflexivity.
Qed.

Lemma X6_resolve_conflicts_trusts_reported_length_witness :
  let self := mkBlockchain [forged_first; forged_second] [] {[ "peer:1"%string ]} in
  let get := fun _ : string => Ok (mkResponse 200 9 [forged_first]) in
  resolve_conflicts get self
  = (Ok (PyBool true), mkBlockchain [forged_first] [] {[ "peer:1"%string ]}).
Proof.
  intros self get.
  apply (X6_resolve_conflicts_trusts_reported_length get self "peer:1"%string
           (mkResponse 200 9 [forged_first])).
  - reflexivity.
  - repeat split.
  - vm_compute. reflexivity.
Defined.

(** X7. When every answer is what a peer's [full_chain] handler sends, the
    reported length being the length of the chain sent, [resolve_conflicts]
    never shortens the chain, and the chain is strictly longer whenever
    [True] is returned. *)
Theorem X7_resolve_conflicts_with_honest_peers
    (get : string -> result Response) (self : Blockchain) :
  (forall (url : string) (r : Response),
      get url = Ok r -> exists peer : Blockchain, r = App.full_chain peer) ->
  (length (chain self) <= length (chain (resolve_conflicts get self).2))%nat
  /\ ((resolve_conflicts get self).1 = Ok (PyBool true) ->
      (length (chain self) < length (chain (resolve_conflicts get self).2))%nat).
Proof.
  intros Hhonest.
  destruct (resolve_conflicts_cases get self)
    as [[e ->] | [-> | [[-> _] | (node & r & _ & Hoffer & Hlen & _ & ->)]]];
    cbn [fst snd chain]; try (split; [lia|discriminate]).
  destruct Hoffer as (Hget & _). destruct (Hhonest _ _ Hget) as [peer ->].
  cbn [App.full_chain json_length json_chain] in *. split; [lia|intros _; lia].
Qed.

Lemma X7_resolve_conflicts_with_honest_peers_witness :
  let self := (register_node (fun _ => true) "http://127.0.0.1:5002" (init "0.0").2).2 in
  let get := fun _ : string => Ok (App.full_chain adopted) in
  (length (chain self) <= length (chain (resolve_conflicts get self).2))%nat
  /\ ((resolve_conflicts get self).1 = Ok (PyBool true) ->
      (length (chain self) < length (chain (resolve_conflicts get self).2))%nat).
Proof.
  intros self get. apply X7_resolve_conflicts_with_honest_peers.
  intros url r [= <-]. exists adopted. reflexivity.
Defined.

Lemma resolve_scan_request_failure (get : string -> result Response)
    (neighbours : list string) (node : string) (e : exn) :
  (forall url : string, get url <> OutOfFuel) ->
  In node neighbours ->
  get ("http://" ++ node ++ "/chain")%string = Raise e ->
  forall acc : Z * option (list Block),
    exists e' : exn, resolve_scan get neighbours acc = Raise e'.
Proof.
  intros Hfuel Hin Hget.
  induction neighbours as [|node' rest IH]; intros [m nc]; [destruct Hin|].
  cbn [resolve_scan].
  destruct (resolve_step get (m, nc) node') as [acc'|e'|] eqn:Hstep.
  - destruct Hin as [-> | Hin]; [|exact (IH Hin acc')].
    unfold resolve_step in Hstep. rewrite Hget in Hstep. discriminate Hstep.
  - eauto.
  - exfalso. unfold resolve_step in Hstep.
    destruct (get ("http://" ++ node' ++ "/chain")%string) as [r|?|] eqn:Hget';
      [|discriminate Hstep|exact (Hfuel _ Hget')].
    destruct (status_code r =? 200); [|discriminate].
    destruct (json_length r >? m); [|discriminate].
    pose proof (valid_chain_not_out_of_fuel (json_chain r)) as Hnot.
    destruct (valid_chain (json_chain r)) as [[|]|?|]; try discriminate.
    apply Hnot. reflexivity.
Qed.

(** X8. A neighbour whose request raises is not skipped: the whole call of
    [resolve_conflicts] raises, and the object is left as it was, whatever
    the other neighbours offered. *)
Theorem X8_resolve_conflicts_request_failure
    (get : string -> result Response) (self : Blockchain) (node : string) (e : exn) :
  (forall url : string, get url <> OutOfFuel) ->
  node ∈ nodes self ->
  get ("http://" ++ node ++ "/chain")%string = Raise e ->
  exists e' : exn, resolve_conflicts get self = (Raise e', self).
Proof.
  intros Hfuel Hnode Hget. unfold resolve_conflicts, resolve_conflicts_over.
  destruct (resolve_scan_request_failure get (elements (nodes self)) node e Hfuel)
    with (acc := (Z.of_nat (length (chain self)), @None (list Block))) as [e' ->].
  - apply list_elem_of_In, elem_of_elements. exact Hnode.
  - exact Hget.
  - exists e'. reflexivity.
Qed.

Lemma X8_resolve_conflicts_request_failure_witness :
  let self := mkBlockchain [forged_first] [] {[ "peer:1"%string ]} in
  exists e' : exn,
    resolve_conflicts (fun _ => Raise RequestException) self = (Raise e', self).
Proof.
  intros self.
  apply (X8_resolve_conflicts_request_failure
           (fun _ => Raise RequestException) self "peer:1"%string RequestException).
  - discriminate.
  - exact (proj2 (elem_of_singleton (C := gset string) _ _) eq_refl).
  - reflexivity.
Defined.

(** ** More on the proof of work *)

Lemma proof_of_work_loop_sound (fuel : nat) :
  forall (p start r : Z),
    proof_of_work_loop fuel p start = Ok r ->
    start <= r < start + Z.of_nat fuel
    /\ valid_proof p r = true
    /\ (forall q' : Z, start <= q' < r -> valid_proof p q' = false).
Proof.
  induction fuel as [|fuel IH]; intros p start r; [discriminate|].
  cbn [proof_of_work_loop]. destruct (valid_proof p start) eqn:Hstart; cbn [negb].
  - intros [= <-]. repeat split; [lia|lia|exact Hstart|intros; lia].
  - intros Hloop. destruct (IH p (start + 1) r Hloop) as (Hr & Hvalid & Hfirst).
    repeat split; [lia|lia|exact Hvalid|].
    intros q' Hq'. destruct (Z.eq_dec q' start) as [->|]; [exact Hstart|].
    apply Hfirst. lia.
Qed.

Lemma proof_of_work_loop_more_fuel (fuel : nat) :
  forall (fuel' : nat) (p start r : Z),
    proof_of_work_loop fuel p start = Ok r ->
    (fuel <= fuel')%nat ->
    proof_of_work_loop fuel' p start = Ok r.
Proof.
  induction fuel as [|fuel IH]; intros fuel' p start r; [discriminate|].
  intros Hloop Hle. destruct fuel' as [|fuel']; [lia|].
  cbn [proof_of_work_loop] in *. destruct (negb (valid_proof p start)); [|exact Hloop].
  apply (IH fuel' p (start + 1) r Hloop). lia.
Qed.

(** X9. What [proof_of_work] returns is a proof: a value that, once
    returned within some number of iterations, is returned for every larger
    number, is non-negative, is accepted by [valid_proof] after
    [last_proof], and is the least such value. *)
Theorem X9_proof_of_work_result (fuel : nat) (last_proof r : Z) :
  proof_of_work fuel last_proof = Ok r ->
  0 <= r < Z.of_nat fuel
  /\ valid_proof last_proof r = true
  /\ (forall q' : Z, 0 <= q' < r -> valid_proof last_proof q' = false)
  /\ (forall fuel' : nat, (fuel <= fuel')%nat -> proof_of_work fuel' last_proof = Ok r).
Proof.
  unfold proof_of_work. intros Hloop.
  destruct (proof_of_work_loop_sound fuel last_proof 0 r Hloop) as (Hr & Hvalid & Hfirst).
  repeat split; [lia|lia|exact Hvalid|exact Hfirst|].
  intros fuel' Hle. exact (proof_of_work_loop_more_fuel fuel fuel' _ _ _ Hloop Hle).
Qed.

Lemma X9_proof_of_work_result_witness :
  0 <= 26 < Z.of_nat 30
  /\ valid_proof 2699 26 = true
  /\ (forall q' : Z, 0 <= q' < 26 -> valid_proof 2699 q' = false)
  /\ (forall fuel' : nat, (30 <= fuel')%nat -> proof_of_work fuel' 2699 = Ok 26).
Proof.
  apply (X9_proof_of_work_result 30 2699 26). vm_compute. reflexivity.
Defined.

(** ** Mining *)

Lemma valid_chain_snoc (chain : list Block) (prev block : Block) :
  valid_chain chain = Ok true ->
  last chain = Some prev ->
  valid_chain (chain ++ [block]) = Ok (linked prev block).
Proof.
  intros Hvalid Hlast.
  destruct (valid_chain_true_nonempty _ Hvalid) as (first & rest & ->).
  rewrite valid_chain_cons in Hvalid. injection Hvalid as Hlinks.
  rewrite <- app_comm_cons, valid_chain_cons, links_ok_snoc, Hlinks.
  rewrite <- (default_last_cons first first rest), Hlast. reflexivity.
Qed.

(** X10. When the search of [proof_of_work] ends, [mine] answers 200 and
    has appended one block: numbered by the length of the chain, holding
    the pool followed by the reward transaction from ["0"] to the node's
    identifier, with the proof found and the digest of the block that was
    last; the pool is empty afterwards, and a chain that [valid_chain]
    accepted is still accepted. *)
Theorem X10_mine_appends_valid_block
    (fuel : nat) (node_identifier now : string) (self : Blockchain)
    (prev : Block) (p : Z) :
  last (chain self) = Some prev ->
  proof_of_work fuel (proof prev) = Ok p ->
  let block :=
    mkBlock (Z.of_nat (length (chain self)) + 1) now
            (current_transactions self ++ [mkTransaction "0" node_identifier 1])
            p (hash (block_dict prev)) in
  (exists response : json,
      App.mine fuel node_identifier now self
      = (Ok (Json response, 200),
         mkBlockchain (chain self ++ [block]) [] (nodes self)))
  /\ (valid_chain (chain self) = Ok true ->
      valid_chain (chain self ++ [block]) = Ok true).
Proof.
  intros Hlast Hwork block. split.
  - unfold App.mine, bind, last_block at 1. rewrite Hlast, Hwork.
    unfold new_transaction, last_block. cbn [chain]. rewrite Hlast.
    rewrite (new_block_omitted now p _ prev) by exact Hlast.
    eexists. reflexivity.
  - intros Hvalid. rewrite (valid_chain_snoc _ prev block Hvalid Hlast).
    unfold linked, block. cbn [previous_hash proof].
    rewrite String.eqb_refl.
    destruct (proof_of_work_loop_sound fuel (proof prev) 0 p Hwork) as (_ & -> & _).
    reflexivity.
Qed.

Lemma X10_mine_appends_valid_block_witness :
  let self := mkBlockchain [mkBlock 1 "0.0" [] 2699 "1"] [mkTransaction "a" "b" 5] ∅ in
  let block :=
    mkBlock 2 "1.0" [mkTransaction "a" "b" 5; mkTransaction "0" "me" 1] 26
            (hash (block_dict (mkBlock 1 "0.0" [] 2699 "1"))) in
  (exists response : json,
      App.mine 30 "me" "1.0" self
      = (Ok (Json response, 200), mkBlockchain (chain self ++ [block]) [] ∅))
  /\ (valid_chain (chain self) = Ok true ->
      valid_chain (chain self ++ [block]) = Ok true).
Proof.
  intros self block.
  apply (X10_mine_appends_valid_block 30 "me" "1.0" self (mkBlock 1 "0.0" [] 2699 "1") 26).
  - reflexivity.
  - vm_compute. reflexivity.
Defined.

(** ** Submitting transactions *)

(** X11. [new_transaction] appends the transaction to the pool, touches
    nothing else and returns the last block's index plus one; the next
    [new_block] holds the pool with the transaction last, and, when the
    last block is numbered by its position, has the index that was
    returned. *)
Theorem X11_new_transaction_then_new_block
    (sender recipient : string) (amount : Z) (self : Blockchain) (prev : Block) :
  last (chain self) = Some prev ->
  let self' :=
    mkBlockchain (chain self)
      (current_transactions self ++ [mkTransaction sender recipient amount])
      (nodes self) in
  new_transaction sender recipient amount self = (Ok (index prev + 1), self')
  /\ forall (now : string) (p : Z) (supplied : option string),
       exists block : Block,
         new_block now p supplied self'
         = (Ok block, mkBlockchain (chain self ++ [block]) [] (nodes self))
         /\ transactions block
            = current_transactions self ++ [mkTransaction sender recipient amount]
         /\ (index prev = Z.of_nat (length (chain self)) ->
             index block = index prev + 1).
Proof.
  intros Hlast self'. split.
  - unfold new_transaction, last_block. cbn [chain]. rewrite Hlast. reflexivity.
  - intros now p supplied.
    destruct (new_block_cases now p supplied self') as [[e He] | [h Hh]].
    + exfalso. unfold new_block, last_block in He. cbn [chain self'] in He.
      rewrite Hlast in He.
      destruct supplied as [h|]; cbn [py_or] in He; [destruct (String.eqb h "")|];
        discriminate He.
    + eexists. split; [exact Hh|]. cbn [transactions index chain self'].
      split; [reflexivity|]. intros ->. reflexivity.
Qed.

Lemma X11_new_transaction_then_new_block_witness :
  new_transaction "alice" "bob" 10 (init "0.0").2
  = (Ok 2, mkBlockchain (chain (init "0.0").2) [mkTransaction "alice" "bob" 10] ∅).
Proof.
  apply (proj1 (X11_new_transaction_then_new_block "alice" "bob" 10 (init "0.0").2
                  (mkBlock 1 "0.0" [] 100 "1") eq_refl)).
Defined.

(** ** The request handlers *)

(** X12. The handler of [/transactions/new] answers 400 with
    [Missing parameters] and changes nothing when one of [sender],
    [recipient], [amount] is missing; otherwise it adds the transaction to
    the pool and answers 201, naming the last block's index plus one. *)
Theorem X12_new_transaction_handler :
  (forall (values : Values) (self : Blockchain),
      values_sender values = None \/ values_recipient values = None
      \/ values_amount values = None ->
      App.new_transaction values self = (Ok (Text "Missing parameters", 400), self))
  /\ (forall (sender recipient : string) (amount : Z) (self : Blockchain) (prev : Block),
        last (chain self) = Some prev ->
        App.new_transaction (mkValues (Some sender) (Some recipient) (Some amount)) self
        = (Ok (Json (JDict [ ("message",
                              JStr ("Transaction will be added to block "
                                      ++ str_int (index prev + 1))) ]%string), 201),
           mkBlockchain (chain self)
             (current_transactions self ++ [mkTransaction sender recipient amount])
             (nodes self))).
Proof.
  split.
  - intros [[s|] [r|] [a|]] self [H | [H | H]]; try discriminate H; reflexivity.
  - intros sender recipient amount self prev Hlast.
    unfold App.new_transaction, bind, new_transaction, last_block.
    cbn [values_sender values_recipient values_amount chain].
    rewrite Hlast. reflexivity.
Qed.

Lemma X12_new_transaction_handler_witness :
  App.new_transaction (mkValues (Some "alice"%string) None (Some 10)) (init "0.0").2
  = (Ok (Text "Missing parameters", 400), (init "0.0").2)
  /\ (App.new_transaction (mkValues (Some "alice"%string) (Some "bob"%string) (Some 10))
        (init "0.0").2).2
     = mkBlockchain (chain (init "0.0").2) [mkTransaction "alice" "bob" 10] ∅.
Proof.
  split.
  - apply (proj1 X12_new_transaction_handler). right. left. reflexivity.
  - rewrite (proj2 X12_new_transaction_handler "alice"%string "bob"%string 10
               (init "0.0").2 (mkBlock 1 "0.0" [] 100 "1") eq_refl).
    reflexivity.
Defined.

Lemma register_each_parsed (check : string -> bool)
    (addresses netlocs rest : list string) :
  Forall2 (fun address netloc => URL.netloc check address = Ok netloc) addresses netlocs ->
  forall self : Blockchain,
    App.register_each check (addresses ++ rest) self
    = App.register_each check rest
        (mkBlockchain (chain self) (current_transactions self)
                      (nodes self ∪ list_to_set netlocs)).
Proof.
  induction 1 as [|address netloc addresses netlocs Hparse _ IH]; intros self.
  - cbn [app list_to_set]. rewrite (right_id_L ∅ (∪)). destruct self; reflexivity.
  - cbn [app App.register_each]. unfold bind at 1, register_node at 1.
    rewrite Hparse, IH. cbn [chain current_transactions nodes list_to_set].
    rewrite (assoc_L (∪)). reflexivity.
Qed.

(** X13. [register_nodes] answers 400 and changes nothing when the request
    holds no list of nodes. With a list whose addresses all parse it
    answers 201 and has added the [netloc] of each one to the set, in which
    duplicates and the order of the list leave no trace; the answer lists
    the resulting set. An empty list is accepted and changes nothing. *)
Theorem X13_register_nodes_handler :
  (forall (check : string -> bool) (self : Blockchain),
      App.register_nodes check None self
      = (Ok (Text "Error: Please provide a valid node list", 400), self))
  /\ (forall (check : string -> bool) (addresses netlocs : list string)
             (self : Blockchain),
        Forall2 (fun address netloc => URL.netloc check address = Ok netloc)
                addresses netlocs ->
        let self' :=
          mkBlockchain (chain self) (current_transactions self)
                       (nodes self ∪ list_to_set netlocs) in
        App.register_nodes check (Some addresses) self
        = (Ok (Json (JDict [ ("message", JStr "New nodes have been added!");
                             ("total_nodes", JList (map JStr (elements (nodes self')))) ]%string),
               201),
           self'))
  /\ (forall (check : string -> bool) (self : Blockchain),
        (App.register_nodes check (Some []) self).2 = self).
Proof.
  split; [reflexivity|]. split.
  - intros check addresses netlocs self Hparse self'.
    unfold App.register_nodes, bind.
    rewrite <- (app_nil_r addresses), (register_each_parsed check _ _ [] Hparse).
    reflexivity.
  - intros check self. reflexivity.
Qed.

Lemma X13_register_nodes_handler_witness :
  (App.register_nodes (fun _ => true)
     (Some ["http://a:1"; "b:2"; "http://a:1/chain"]%string) blank).2
  = mkBlockchain [] [] (∅ ∪ list_to_set ["a:1"; ""; "a:1"]%string).
Proof.
  rewrite (proj1 (proj2 X13_register_nodes_handler) (fun _ => true)
             ["http://a:1"; "b:2"; "http://a:1/chain"]%string
             ["a:1"; ""; "a:1"]%string blank).
  - reflexivity.
  - repeat constructor.
Defined.

(** X14. [register_nodes] stops at the first address that [urlparse]
    rejects: the exception leaves the handler, the addresses before it stay
    registered and those after it are not looked at. *)
Theorem X14_register_nodes_partial
    (check : string -> bool) (addresses netlocs : list string) (bad : string)
    (rest : list string) (e : exn) (self : Blockchain) :
  Forall2 (fun address netloc => URL.netloc check address = Ok netloc) addresses netlocs ->
  URL.netloc check bad = Raise e ->
  App.register_nodes check (Some (addresses ++ bad :: rest)) self
  = (Raise e,
     mkBlockchain (chain self) (current_transactions self)
                  (nodes self ∪ list_to_set netlocs)).
Proof.
  intros Hparse Hbad. unfold App.register_nodes, bind.
  rewrite (register_each_parsed check _ _ (bad :: rest) Hparse).
  cbn [App.register_each]. unfold bind, register_node. rewrite Hbad. reflexivity.
Qed.

Lemma X14_register_nodes_partial_witness :
  App.register_nodes (fun _ => true)
    (Some (["http://a:1"%string] ++ ["x://b]"%string; "http://c:3"%string])) blank
  = (Raise ValueError, mkBlockchain [] [] (∅ ∪ list_to_set ["a:1"%string])).
Proof.
  apply (X14_register_nodes_partial (fun _ => true) ["http://a:1"%string] ["a:1"%string]).
  - repeat constructor.
  - vm_compute. reflexivity.
Defined.

(** X15. [consensus] reads the [None] that [resolve_conflicts] returns as
    "not replaced": when no neighbour offers a strictly longer chain that
    passes [valid_chain] it answers 200 with the node's unchanged chain;
    when the only neighbour does, it answers 200 with the adopted chain
    under [new_chain]. *)
Theorem X15_consensus_handler :
  (forall (get : string -> result Response) (self : Blockchain),
      (forall node : string, node ∈ nodes self ->
         offers_nothing get (Z.of_nat (length (chain self))) node) ->
      App.consensus get self
      = (Ok (Json (JDict [ ("message",
                            JStr "The current chain complies with the requirements");
                           ("chain", JList (map block_dict (chain self))) ]%string), 200),
         self))
  /\ (forall (get : string -> result Response) (self : Blockchain)
             (node : string) (r : Response),
        nodes self = {[ node ]} ->
        offer get node r ->
        Z.of_nat (length (chain self)) < json_length r ->
        App.consensus get self
        = (Ok (Json (JDict [ ("message",
                              JStr "The current chain was not compliant and has been replaced");
                             ("new_chain", JList (map block_dict (json_chain r))) ]%string),
               200),
           mkBlockchain (json_chain r) (current_transactions self) (nodes self))).
Proof.
  split.
  - intros get self Hpeers.
    unfold App.consensus, bind, resolve_conflicts, resolve_conflicts_over.
    rewrite resolve_scan_nothing; [reflexivity|].
    apply Forall_forall. intros node Hin. apply Hpeers, elem_of_elements. exact Hin.
  - intros get self node r Hnodes Hoffer Hlen.
    unfold App.consensus, bind, resolve_conflicts, resolve_conflicts_over.
    rewrite Hnodes, elements_singleton. cbn [resolve_scan].
    rewrite (resolve_step_offer get _ _ node r Hoffer).
    destruct (Z.gtb_spec (json_length r) (Z.of_nat (length (chain self)))); [|lia].
    destruct Hoffer as (_ & _ & Hvalid).
    destruct (valid_chain_true_nonempty _ Hvalid) as (first & rest & Hchain).
    rewrite Hchain. reflexivity.
Qed.

Lemma X15_consensus_handler_witness :
  (App.consensus forged_get (init "0.0").2).2 = (init "0.0").2.
Proof.
  rewrite (proj1 X15_consensus_handler forged_get (init "0.0").2).
  - reflexivity.
  - intros node Hin. exfalso. exact (not_elem_of_empty (C := gset string) node Hin).
Defined.

(** ** More on the parsed addresses *)

Lemma all_chars_take (p : ascii -> bool) (n : nat) :
  forall s : string, all_chars p s = true -> all_chars p (URL.take n s) = true.
Proof.
  induction n as [|n IH]; intros [|c s]; cbn [URL.take all_chars]; try reflexivity.
  intros [Hc Hs]%andb_true_iff. rewrite Hc, (IH s Hs). reflexivity.
Qed.

Lemma all_chars_drop (p : ascii -> bool) (n : nat) :
  forall s : string, all_chars p s = true -> all_chars p (URL.drop n s) = true.
Proof.
  induction n as [|n IH]; intros [|c s]; cbn [URL.drop]; try tauto.
  cbn [all_chars]. intros [_ Hs]%andb_true_iff. exact (IH s Hs).
Qed.

Lemma all_chars_strip_scheme (p : ascii -> bool) (s : string) :
  all_chars p s = true -> all_chars p (URL.strip_scheme s) = true.
Proof.
  intros Hs. unfold URL.strip_scheme. destruct s as [|c s]; [reflexivity|].
  destruct (_ && _); [apply all_chars_drop|]; exact Hs.
Qed.

Lemma remove_unsafe_all_safe (s : string) :
  all_chars (fun c => negb (URL.unsafe c)) (URL.remove_unsafe s) = true.
Proof.
  induction s as [|c s IH]; [reflexivity|].
  cbn [URL.remove_unsafe]. destruct (URL.unsafe c) eqn:Hc; [exact IH|].
  cbn [all_chars]. rewrite Hc, IH. reflexivity.
Qed.

Lemma take_before_find (c : ascii) (n : nat) :
  forall s : string,
    URL.find c s < 0 \/ Z.of_nat n <= URL.find c s ->
    all_chars (differs c) (URL.take n s) = true.
Proof.
  induction n as [|n IH]; intros [|d s]; cbn [URL.take all_chars]; try reflexivity.
  cbn [URL.find]. unfold differs at 1.
  destruct (Ascii.eqb d c); [lia|]. cbn [negb andb].
  pose proof (find_lower c s).
  destruct (Z.ltb_spec (URL.find c s) 0); intros Hfind; apply IH; lia.
Qed.

Lemma splitnetloc_no_delimiter (url : string) :
  all_chars (differs "/") (URL.splitnetloc url) = true
  /\ all_chars (differs "?") (URL.splitnetloc url) = true
  /\ all_chars (differs "#") (URL.splitnetloc url) = true.
Proof.
  unfold URL.splitnetloc, URL.find_from. cbn [fold_left].
  pose proof (find_lower "/" (URL.drop 2 url)) as L1.
  pose proof (find_lower "?" (URL.drop 2 url)) as L2.
  pose proof (find_lower "#" (URL.drop 2 url)) as L3.
  repeat split; apply take_before_find;
    generalize dependent (URL.find "/" (URL.drop 2 url));
    generalize dependent (URL.find "?" (URL.drop 2 url));
    generalize dependent (URL.find "#" (URL.drop 2 url));
    generalize (String.length url); intros len f3 L3 f2 L2 f1 L1;
    destruct (Z.ltb_spec f1 0), (Z.ltb_spec f2 0), (Z.ltb_spec f3 0);
    repeat match goal with
           | |- context [?a <=? ?b] => destruct (Z.leb_spec a b)
           end; lia.
Qed.

Lemma netloc_chars (check : string -> bool) (address netloc : string) :
  URL.netloc check address = Ok netloc ->
  all_chars (fun c => negb (URL.unsafe c)) netloc = true
  /\ all_chars (differs "/") netloc = true
  /\ all_chars (differs "?") netloc = true
  /\ all_chars (differs "#") netloc = true.
Proof.
  unfold URL.netloc.
  set (url := URL.strip_scheme (URL.remove_unsafe (URL.lstrip address))).
  assert (Hsafe : all_chars (fun c => negb (URL.unsafe c)) url = true)
    by apply all_chars_strip_scheme, remove_unsafe_all_safe.
  assert (Hresult : all_chars (fun c => negb (URL.unsafe c)) (URL.splitnetloc url) = true).
  { unfold URL.splitnetloc. apply all_chars_take, all_chars_drop, Hsafe. }
  destruct (String.eqb (URL.take 2 url) "//");
    [|intros [= <-]; repeat split; reflexivity].
  destruct (_ || _); [discriminate|].
  destruct (_ && _); [discriminate|].
  intros [= <-]. split; [exact Hresult|]. apply splitnetloc_no_delimiter.
Qed.

(** X16. The [netloc] that [register_node] stores holds no tab, carriage
    return or line feed and none of [/], [?] and [#], whatever the
    address. *)
Theorem X16_netloc_has_no_delimiter (check : string -> bool) (address netloc : string) :
  URL.netloc check address = Ok netloc ->
  URL.remove_unsafe netloc = netloc
  /\ URL.contains "/" netloc = false
  /\ URL.contains "?" netloc = false
  /\ URL.contains "#" netloc = false.
Proof.
  intros Hnetloc.
  destruct (netloc_chars check address netloc Hnetloc) as (Hsafe & H1 & H2 & H3).
  split; [exact (remove_unsafe_safe netloc Hsafe)|].
  unfold URL.contains.
  rewrite (find_differs _ _ H1), (find_differs _ _ H2), (find_differs _ _ H3).
  repeat split.
Qed.

Lemma X16_netloc_has_no_delimiter_witness :
  URL.remove_unsafe "User@Host:80" = "User@Host:80"%string
  /\ URL.contains "/" "User@Host:80" = false
  /\ URL.contains "?" "User@Host:80" = false
  /\ URL.contains "#" "User@Host:80" = false.
Proof.
  apply (X16_netloc_has_no_delimiter (fun _ => true) "HTTP://User@Host:80/chain?x#y").
  vm_compute. reflexivity.
Defined.

(** X17. The URL that [resolve_conflicts] requests for a stored node parses
    back to that node: for a [netloc] without brackets that [urlparse] gave,
    the [netloc] of [http://<netloc>/chain] is the same text. *)
Theorem X17_stored_node_is_authority_of_request
    (check check' : string -> bool) (address netloc : string) :
  URL.netloc check address = Ok netloc ->
  URL.contains "[" netloc = false ->
  URL.contains "]" netloc = false ->
  URL.netloc check' ("http://" ++ netloc ++ "/chain") = Ok netloc.
Proof.
  intros Hnetloc Hopen Hclose.
  destruct (netloc_chars check address netloc Hnetloc) as (Hsafe & H1 & H2 & H3).
  assert (Hbracket : forall c, URL.contains c netloc = false ->
                               all_chars (differs c) netloc = true).
  { intros c Hc. apply differs_find. unfold URL.contains in Hc.
    destruct (Z.leb_spec 0 (URL.find c netloc)); [discriminate Hc|assumption]. }
  apply (netloc_with_scheme check' "h" "ttp" netloc "/chain"); try reflexivity.
  pose proof (Hbracket _ Hopen) as H4. pose proof (Hbracket _ Hclose) as H5.
  clear - Hsafe H1 H2 H3 H4 H5.
  induction netloc as [|c s IH]; [reflexivity|].
  cbn [all_chars] in *.
  apply andb_true_iff in Hsafe as [S0 S], H1 as [A0 A], H2 as [B0 B],
                         H3 as [C0 C], H4 as [D0 D], H5 as [E0 E].
  unfold authority_char at 1. rewrite S0, A0, B0, C0, D0, E0. cbn [andb].
  exact (IH S A B C D E).
Qed.

Lemma X17_stored_node_is_authority_of_request_witness :
  URL.netloc (fun _ => false) ("http://" ++ "127.0.0.1:5002" ++ "/chain")
  = Ok "127.0.0.1:5002"%string.
Proof.
  apply (X17_stored_node_is_authority_of_request (fun _ => true) (fun _ => false)
           "http://127.0.0.1:5002"); vm_compute; reflexivity.
Defined.

(** ** Two honest nodes *)

(** X18. Against a neighbour that built its chain by mining and answers
    with its [full_chain] handler, [resolve_conflicts] of a node with that
    one neighbour returns [True] and takes the neighbour's chain when that
    chain is strictly longer, and returns [None] and keeps its own chain
    otherwise. *)
Theorem X18_resolve_conflicts_against_mined_peer
    (self peer : Blockchain) (node : string) :
  nodes self = {[ node ]} ->
  mined peer ->
  let get := fun _ : string => Ok (App.full_chain peer) in
  ((length (chain self) < length (chain peer))%nat ->
   resolve_conflicts get self
   = (Ok (PyBool true),
      mkBlockchain (chain peer) (current_transactions self) (nodes self)))
  /\ ((length (chain peer) <= length (chain self))%nat ->
      resolve_conflicts get self = (Ok PyNone, self)).
Proof.
  intros Hnodes Hmined get.
  assert (Hoffer : offer get node (App.full_chain peer)).
  { repeat split. cbn [App.full_chain json_chain].
    destruct (mined_links peer Hmined) as (first & rest & -> & Hlinks).
    rewrite valid_chain_cons, Hlinks. reflexivity. }
  unfold resolve_conflicts, resolve_conflicts_over.
  rewrite Hnodes, elements_singleton. cbn [resolve_scan].
  rewrite (resolve_step_offer get _ _ node _ Hoffer).
  cbn [App.full_chain json_length json_chain].
  split; intros Hlen.
  - destruct (Z.gtb_spec (Z.of_nat (length (chain peer))) (Z.of_nat (length (chain self))));
      [|lia].
    destruct (chain peer) as [|first rest]; [simpl in Hlen; lia|]. reflexivity.
  - destruct (Z.gtb_spec (Z.of_nat (length (chain peer))) (Z.of_nat (length (chain self))));
      [lia|reflexivity].
Qed.

Lemma X18_resolve_conflicts_against_mined_peer_witness :
  let self := mkBlockchain [mkBlock 1 "5.0" [] 100 "1"] [] {[ "peer:1"%string ]} in
  let peer := (new_block "1.0" 35293 None (init "0.0").2).2 in
  let get := fun _ : string => Ok (App.full_chain peer) in
  ((length (chain self) < length (chain peer))%nat ->
   resolve_conflicts get self
   = (Ok (PyBool true),
      mkBlockchain (chain peer) (current_transactions self) (nodes self)))
  /\ ((length (chain peer) <= length (chain self))%nat ->
      resolve_conflicts get self = (Ok PyNone, self)).
Proof.
  intros self peer.
  apply (X18_resolve_conflicts_against_mined_peer self peer "peer:1"%string).
  - reflexivity.
  - apply (mined_block _ _ _ (mkBlock 1 "0.0" [] 100 "1")).
    + apply mined_genesis.
    + reflexivity.
    + vm_compute. reflexivity.
Defined.

(** ** The search without an answer *)

Lemma proof_of_work_loop_out_of_fuel (fuel : nat) :
  forall (p start : Z),
    proof_of_work_loop fuel p start = OutOfFuel
    <-> (forall q : Z, start <= q < start + Z.of_nat fuel -> valid_proof p q = false).
Proof.
  induction fuel as [|fuel IH]; intros p start.
  - split; [intros _ q Hq; lia|reflexivity].
  - cbn [proof_of_work_loop]. destruct (valid_proof p start) eqn:Hstart; cbn [negb].
    + split; [discriminate|]. intros H. rewrite (H start) in Hstart by lia.
      discriminate Hstart.
    + rewrite (IH p (start + 1)). split; intros H q Hq.
      * destruct (Z.eq_dec q start) as [->|]; [exact Hstart|]. apply H. lia.
      * apply H. lia.
Qed.

(** X19. [proof_of_work] looks at the candidates 0, 1, 2, ... in turn and at
    nothing else: it is still searching after [fuel] tests exactly when
    [valid_proof] refuses every candidate below [fuel], and it never
    raises. *)
Theorem X19_proof_of_work_search (fuel : nat) (last_proof : Z) :
  (proof_of_work fuel last_proof = OutOfFuel
   <-> (forall q : Z, 0 <= q < Z.of_nat fuel -> valid_proof last_proof q = false))
  /\ (forall e : exn, proof_of_work fuel last_proof <> Raise e).
Proof.
  split.
  - unfold proof_of_work. rewrite proof_of_work_loop_out_of_fuel. reflexivity.
  - intros e. unfold proof_of_work. generalize 0.
    induction fuel as [|fuel IH]; intros start; [discriminate|].
    cbn [proof_of_work_loop]. destruct (negb _); [apply IH|discriminate].
Qed.

(** ** Addresses that are rejected *)

Lemma splitnetloc_delimiter_free (authority rest : string) :
  all_chars (differs "/") authority = true ->
  all_chars (differs "?") authority = true ->
  all_chars (differs "#") authority = true ->
  starts_path rest = true ->
  URL.splitnetloc (String "/" (String "/" (authority ++ rest))) = authority.
Proof.
  intros Hslash Hquery Hfrag Hrest.
  unfold URL.splitnetloc, URL.find_from. cbn [URL.drop fold_left String.length].
  rewrite (find_app_differs "/" authority rest Hslash),
          (find_app_differs "?" authority rest Hquery),
          (find_app_differs "#" authority rest Hfrag), length_append.
  pose proof (find_lower "/" rest) as L1.
  pose proof (find_lower "?" rest) as L2.
  pose proof (find_lower "#" rest) as L3.
  assert (Hdelim :
    (String.length rest = 0%nat
     /\ URL.find "/" rest = -1 /\ URL.find "?" rest = -1 /\ URL.find "#" rest = -1)
    \/ URL.find "/" rest = 0 \/ URL.find "?" rest = 0 \/ URL.find "#" rest = 0).
  { destruct rest as [|c r]; [left; repeat split; reflexivity|right].
    cbn [starts_path] in Hrest. cbn [URL.find].
    destruct (Ascii.eqb c "/"); [left; reflexivity|].
    destruct (Ascii.eqb c "?"); [right; left; reflexivity|].
    destruct (Ascii.eqb c "#"); [right; right; reflexivity|discriminate Hrest]. }
  match goal with
  | |- URL.take ?n _ = _ => replace n with (String.length authority)
  end; [apply take_app_length|].
  generalize dependent (URL.find "/" rest). generalize dependent (URL.find "?" rest).
  generalize dependent (URL.find "#" rest). generalize (String.length rest).
  generalize (String.length authority). clear.
  intros la lr f3 L3 f2 L2 f1 L1 Hdelim.
  destruct (Z.ltb_spec f1 0), (Z.ltb_spec f2 0), (Z.ltb_spec f3 0);
  repeat match goal with
         | |- context [?a <? ?b] => destruct (Z.ltb_spec a b)
         | |- context [?a <=? ?b] => destruct (Z.leb_spec a b)
         end; lia.
Qed.

(** The parse of [scheme://authority], with or without brackets in the
    authority. *)
Lemma netloc_with_scheme_brackets (check : string -> bool) (c0 : ascii)
    (s0 authority rest : string) :
  URL.is_alpha c0 = true ->
  URL.all_scheme_chars (String c0 s0) = true ->
  URL.remove_unsafe authority = authority ->
  URL.contains "/" authority = false ->
  URL.contains "?" authority = false ->
  URL.contains "#" authority = false ->
  starts_path rest = true ->
  URL.netloc check (String c0 s0 ++ "://" ++ authority ++ rest)
  = if (URL.contains "[" authority && negb (URL.contains "]" authority))
       || (URL.contains "]" authority && negb (URL.contains "[" authority))
    then Raise ValueError
    else if URL.contains "[" authority && URL.contains "]" authority
            && negb (check authority)
    then Raise ValueError
    else Ok authority.
Proof.
  intros Halpha Hscheme Hsafe H1 H2 H3 Hrest.
  assert (Hdiffers : forall c, URL.contains c authority = false ->
                               all_chars (differs c) authority = true).
  { intros c Hc. apply differs_find. unfold URL.contains in Hc.
    destruct (Z.leb_spec 0 (URL.find c authority)); [discriminate Hc|assumption]. }
  unfold URL.netloc.
  rewrite append_cons. cbn [URL.lstrip]. rewrite (alpha_not_stripped c0 Halpha).
  rewrite <- append_cons.
  rewrite !remove_unsafe_app, Hsafe.
  rewrite (remove_unsafe_safe (String c0 s0)).
  2:{ rewrite all_scheme_chars_all in Hscheme. revert Hscheme.
      apply all_chars_impl. intros c Hc.
      rewrite (proj1 (scheme_char_facts c Hc)). reflexivity. }
  change (URL.remove_unsafe "://") with "://"%string.
  change ("://" ++ authority ++ URL.remove_unsafe rest)%string
    with (String ":" (String "/" (String "/" (authority ++ URL.remove_unsafe rest)))).
  rewrite (strip_scheme_found c0 s0 _ Halpha Hscheme).
  cbn [URL.take String.eqb Ascii.eqb Bool.eqb].
  rewrite (splitnetloc_delimiter_free authority _ (Hdiffers _ H1) (Hdiffers _ H2)
             (Hdiffers _ H3) (starts_path_remove_unsafe rest Hrest)).
  reflexivity.
Qed.

(** X20. [register_node] raises [ValueError] and registers nothing for
    [scheme://authority] when the authority holds one kind of square
    bracket without the other, or holds both and the interpreter rejects
    the bracketed host. *)
Theorem X20_register_node_bracket_error
    (check : string -> bool) (c0 : ascii) (s0 authority rest : string)
    (self : Blockchain) :
  URL.is_alpha c0 = true ->
  URL.all_scheme_chars (String c0 s0) = true ->
  URL.remove_unsafe authority = authority ->
  URL.contains "/" authority = false ->
  URL.contains "?" authority = false ->
  URL.contains "#" authority = false ->
  starts_path rest = true ->
  URL.contains "[" authority <> URL.contains "]" authority
  \/ (URL.contains "[" authority = true /\ check authority = false) ->
  register_node check (String c0 s0 ++ "://" ++ authority ++ rest) self
  = (Raise ValueError, self).
Proof.
  intros Halpha Hscheme Hsafe H1 H2 H3 Hrest Hbad. unfold register_node.
  rewrite (netloc_with_scheme_brackets check c0 s0 authority rest
             Halpha Hscheme Hsafe H1 H2 H3 Hrest).
  destruct (URL.contains "[" authority), (URL.contains "]" authority),
           (check authority); cbn [andb orb negb]; try reflexivity;
    destruct Hbad as [Hne | [Hopen Hcheck]]; congruence.
Qed.

Lemma X20_register_node_bracket_error_witness :
  register_node (fun _ => true) "x://b]" blank = (Raise ValueError, blank).
Proof.
  apply (X20_register_node_bracket_error (fun _ => true) "x" "" "b]" "" blank);
    try (vm_compute; reflexivity).
  left. vm_compute. discriminate.
Defined.

(** ** The digest as a text *)

Lemma all_chars_app (p : ascii -> bool) (s t : string) :
  all_chars p (s ++ t) = all_chars p s && all_chars p t.
Proof.
  induction s as [|c s IH]; [reflexivity|].
  rewrite append_cons. cbn [all_chars]. rewrite IH, andb_assoc. reflexivity.
Qed.

Lemma hex_digit_hex (y : Z) : hex_char (SHA256.hex_digit (Z.land y 15)) = true.
Proof.
  assert (H : 0 <= Z.land y 15 < 16).
  { change 15 with (Z.ones 4). rewrite Z.land_ones by lia. apply Z.mod_pos_bound. lia. }
  assert (Hcases : Z.land y 15 = 0 \/ Z.land y 15 = 1 \/ Z.land y 15 = 2
                   \/ Z.land y 15 = 3 \/ Z.land y 15 = 4 \/ Z.land y 15 = 5
                   \/ Z.land y 15 = 6 \/ Z.land y 15 = 7 \/ Z.land y 15 = 8
                   \/ Z.land y 15 = 9 \/ Z.land y 15 = 10 \/ Z.land y 15 = 11
                   \/ Z.land y 15 = 12 \/ Z.land y 15 = 13 \/ Z.land y 15 = 14
                   \/ Z.land y 15 = 15) by lia.
  repeat destruct Hcases as [-> | Hcases]; try rewrite Hcases; reflexivity.
Qed.

Lemma hex_word_hex (x : Z) :
  String.length (SHA256.hex_word x) = 8%nat
  /\ all_chars hex_char (SHA256.hex_word x) = true.
Proof.
  split; [reflexivity|].
  unfold SHA256.hex_word. cbn [rev seq app fold_right all_chars].
  rewrite !hex_digit_hex. reflexivity.
Qed.

Transparent SHA256.hexdigest.

Lemma sha256_hex_hex (s : string) :
  String.length (sha256_hex s) = 64%nat /\ all_chars hex_char (sha256_hex s) = true.
Proof.
  unfold sha256_hex, SHA256.hexdigest. generalize (SHA256.digest (encode s)).
  intros r. cbv zeta. rewrite !length_append, !all_chars_app.
  rewrite !(proj1 (hex_word_hex _)), !(proj2 (hex_word_hex _)). split; reflexivity.
Qed.

Opaque SHA256.hexdigest.

(** X21. [hash] returns 64 lower-case hexadecimal digits for every block,
    and so does the digest that [valid_proof] slices. *)
Theorem X21_hash_is_64_hex_digits :
  (forall block : json,
      String.length (hash block) = 64%nat /\ all_chars hex_char (hash block) = true)
  /\ (forall last_proof p : Z,
        String.length (sha256_hex (str_int last_proof ++ str_int p)) = 64%nat).
Proof.
  split.
  - intros block. unfold hash. apply sha256_hex_hex.
  - intros last_proof p. apply sha256_hex_hex.
Qed.

Lemma dumps_transaction_dict (t : Transaction) :
  dumps true (transaction_dict t) = transaction_text t.
Proof. reflexivity. Qed.

(** X22. The text that [hash] digests for a block of the node lists the
    five keys in alphabetical order, [index], [previous_hash], [proof],
    [timestamp], [transactions], and in each transaction [amount],
    [recipient], [sender], whatever the order in which the dictionaries
    were built. *)
Theorem X22_hash_digests_sorted_text (b : Block) :
  dumps true (block_dict b) = block_text b
  /\ hash (block_dict b) = sha256_hex (block_text b).
Proof.
  assert (H : dumps true (block_dict b) = block_text b).
  { unfold block_dict, block_text. rewrite dumps_dict. cbn [map fst snd].
    rewrite dumps_list, map_map.
    rewrite (map_ext _ _ dumps_transaction_dict). reflexivity. }
  split; [exact H|]. unfold hash. rewrite H. reflexivity.
Qed.

